(** * GCP-GPT: ingestion ledger, ingestion orchestrator and QnA assistant

    A shallow embedding of the three Streamlit scripts of the repository
    ([inventory.py], [app.py], [GCP_GPT_Assistant.py]) and the properties
    of them that the design document states.

    The scripts are glue around four remote services (S3, Pinecone, the
    OpenAI embedding and completion endpoints) and one imported loader.
    The services are modelled by a [State]: the bucket, the set of index
    names, a script of injected failures, and a log of every call issued
    together with its outcome.  The Python code is modelled as programs of
    a state-and-exception monad over that state. *)

From Stdlib Require Import ZArith Ascii String List.
From stdpp Require Import base tactics option list sorting gmap strings pretty fin_maps.

Open Scope string_scope.
Open Scope Z_scope.

(** ** Python strings

    A Python [str] is modelled by the bytes of its UTF-8 encoding: a
    literal of a script is the literal here, comparison of strings is
    comparison of their bytes, and a character outside ASCII is the two to
    four bytes that encode it. *)

Module Str.

(** The newline character and the one-character strings the scripts use. *)
Definition nl_char : ascii := "010"%char.
Definition nl : string := String nl_char "".
Definition dquote : string := String "034"%char "".

(** [s.startswith(p)] *)
Fixpoint startswith (s p : string) {struct p} : bool :=
  match p with
  | EmptyString => true
  | String a p' =>
      match s with
      | EmptyString => false
      | String b s' => if Ascii.eqb a b then startswith s' p' else false
      end
  end.

(** [s.endswith(p)]: some tail of [s] is [p]. *)
Fixpoint endswith (s p : string) : bool :=
  if String.eqb s p then true
  else match s with
       | EmptyString => false
       | String _ s' => endswith s' p
       end.

(** [p in s]: [p] starts some tail of [s]. *)
Fixpoint contains (s p : string) : bool :=
  if startswith s p then true
  else match s with
       | EmptyString => false
       | String _ s' => contains s' p
       end.

(** [s.split(sep)] for a one-character separator. *)
Fixpoint split (sep : ascii) (s : string) : list string :=
  match s with
  | EmptyString => [EmptyString]
  | String c s' =>
      if Ascii.eqb c sep then EmptyString :: split sep s'
      else match split sep s' with
           | [] => [String c EmptyString]
           | line :: lines => String c line :: lines
           end
  end.

(** [sep.join(ls)] *)
Definition join (sep : string) (ls : list string) : string := String.concat sep ls.

(** [os.path.basename(p)]: what follows the last slash. *)
Definition basename (p : string) : string := List.last (split "/"%char p) EmptyString.

(** The characters that [s.strip()] removes are those of [str.isspace]:
    in ASCII, space, tab to carriage return and the four separators
    U+001C to U+001F; beyond ASCII, U+0085, U+00A0, U+1680, U+2000 to
    U+200A, U+2028, U+2029, U+202F, U+205F and U+3000, which UTF-8 encodes
    in two or three bytes. *)
Definition is_space (c : ascii) : bool :=
  let n := Ascii.nat_of_ascii c in
  (Nat.eqb n 32 || (Nat.leb 9 n && Nat.leb n 13) || (Nat.leb 28 n && Nat.leb n 31))%bool.

(** U+0085 is [C2 85] and U+00A0 is [C2 A0]. *)
Definition is_space2 (a b : ascii) : bool :=
  let a := Ascii.nat_of_ascii a in
  let b := Ascii.nat_of_ascii b in
  (Nat.eqb a 194 && (Nat.eqb b 133 || Nat.eqb b 160))%bool.

(** U+1680 is [E1 9A 80]; U+2000 to U+200A are [E2 80 80] to [E2 80 8A];
    U+2028, U+2029 and U+202F are [E2 80 A8], [E2 80 A9] and [E2 80 AF];
    U+205F is [E2 81 9F]; U+3000 is [E3 80 80]. *)
Definition is_space3 (a b c : ascii) : bool :=
  let a := Ascii.nat_of_ascii a in
  let b := Ascii.nat_of_ascii b in
  let c := Ascii.nat_of_ascii c in
  ((Nat.eqb a 225 && Nat.eqb b 154 && Nat.eqb c 128)
   || (Nat.eqb a 226 && Nat.eqb b 128
       && ((Nat.leb 128 c && Nat.leb c 138) || Nat.eqb c 168 || Nat.eqb c 169
           || Nat.eqb c 175))
   || (Nat.eqb a 226 && Nat.eqb b 129 && Nat.eqb c 159)
   || (Nat.eqb a 227 && Nat.eqb b 128 && Nat.eqb c 128))%bool.

(** [s.lstrip()]: the white space in front goes, character by character. *)
Fixpoint lstrip (s : string) : string :=
  match s with
  | EmptyString => EmptyString
  | String a s1 =>
      if is_space a then lstrip s1
      else
        match s1 with
        | EmptyString => s
        | String b s2 =>
            if is_space2 a b then lstrip s2
            else
              match s2 with
              | EmptyString => s
              | String c s3 => if is_space3 a b c then lstrip s3 else s
              end
        end
  end.

(** [s.rstrip()], on the bytes of [s] in reverse order: the bytes of the
    last character come first, the last byte in front. *)
Fixpoint rstrip_rev (s : string) : string :=
  match s with
  | EmptyString => EmptyString
  | String c s1 =>
      if is_space c then rstrip_rev s1
      else
        match s1 with
        | EmptyString => s
        | String b s2 =>
            if is_space2 b c then rstrip_rev s2
            else
              match s2 with
              | EmptyString => s
              | String a s3 => if is_space3 a b c then rstrip_rev s3 else s
              end
        end
  end.

(** [s.strip()] *)
Definition strip (s : string) : string :=
  String.rev (rstrip_rev (String.rev (lstrip s))).

(** Truth value of a string: non-empty. *)
Definition truthy (s : string) : bool :=
  match s with EmptyString => false | _ => true end.

(** [begins_with p s]: the text of [s] begins with the literal [p]. *)
Definition begins_with (p s : string) : Prop := ∃ rest, s = p ++ rest.

End Str.

(** ** Python's [sorted] with [reverse=True] *)

Module Py.

Section sorted.
Context {A K : Type} (key : A → K) (lt : K → K → bool).

(** Insertion of [x] in front of a list that is already in descending
    order of key: [x] goes before the first element whose key is not
    larger than its own, so that among equal keys the one nearer the
    front of the input stays in front (the sort is stable, also when
    reversed). *)
Fixpoint insert_desc (x : A) (l : list A) : list A :=
  match l with
  | [] => [x]
  | y :: l' => if lt (key x) (key y) then y :: insert_desc x l' else x :: y :: l'
  end.

(** [sorted(l, key=key, reverse=True)] *)
Definition sorted_reverse (l : list A) : list A := foldr insert_desc [] l.

(** The element a descending sort puts first: the first maximum. *)
Definition first_max (x : A) (acc : option A) : option A :=
  match acc with
  | None => Some x
  | Some h => if lt (key x) (key h) then Some h else Some x
  end.

End sorted.

End Py.

(** ** Exceptions, remote services and the state of a script run *)

(** The exceptions the scripts can meet.  [ClientError] is botocore's
    [ClientError] (an error response of S3: a missing key, a denied
    access, ...); [ServiceError] stands for every other exception a client
    library raises (connection failure, Pinecone or OpenAI API error, a
    client that finds no API key).  [DuplicateWidgetID] is Streamlit's
    refusal of a second widget of the same kind and label that has no
    [key] of its own ([StreamlitDuplicateElementId] in later releases). *)
Inductive exn : Type :=
  | ClientError (msg : string)
  | JSONDecodeError (msg : string)
  | KeyError (key : string)
  | TypeError (msg : string)
  | ValueError (msg : string)
  | IndexError (msg : string)
  | ServiceError (msg : string)
  | DuplicateWidgetID (label : string).

(** [str(e)], as the f-strings of the scripts print it.  No script prints
    a [DuplicateWidgetID], whose text depends on the release of Streamlit:
    the first sentence of it stands for the whole. *)
Definition str (e : exn) : string :=
  match e with
  | ClientError msg | JSONDecodeError msg | TypeError msg | ValueError msg
  | IndexError msg | ServiceError msg => msg
  | KeyError key => "'" ++ key ++ "'"
  | DuplicateWidgetID _ =>
      "There are multiple identical `st.button` widgets with the same generated key."
  end.

Definition is_ClientError (e : exn) : bool :=
  match e with ClientError _ => true | _ => false end.

Definition is_KeyError (e : exn) : bool :=
  match e with KeyError _ => true | _ => false end.

(** What an object of the bucket holds: a JSON object of strings (the
    shape of the ingestion ledger), or bytes that [json.load] rejects. *)
Inductive body : Type :=
  | JsonDict (d : gmap string string)
  | Raw (bytes : string).

(** An entry of the bucket, with the fields of a [list_objects_v2] entry. *)
Record S3Object : Type := { Key : string; LastModified : Z; Body : body }.

(** A match of a Pinecone query: [metadata] is [None] for a match that
    carries none, and any field may be missing from a metadata that is
    there. *)
Record Match : Type := { id : string; metadata : option (gmap string string) }.

(** A query response; [matches = None] when the key is absent. *)
Record QueryResult : Type := { matches : option (list Match) }.

(** The calls the scripts issue to the outside. *)
Inductive call : Type :=
  | s3_download_file (Bucket key : string)
  | s3_upload_file (Bucket key : string) (data : body)
  | s3_list_objects_v2 (Bucket Prefix : string)
  | s3_delete_object (Bucket key : string)
  | LangchainPineconeLoader (bucket_name directory_path index_name : string)
  | load_and_index (bucket_name directory_path index_name : string)
  | pc_list_indexes
  | pc_create_index (name : string) (dimension : Z) (metric : string)
  | pc_Index (name : string)
  | index_query (name : string) (vector : list Z) (top_k : nat)
  | embeddings_create (input model : string)
  | chat_completions_create (model : string) (messages : list (string * string))
  | time_sleep (seconds : Z).

(** What a script shows, and the buttons it draws in the side bar. *)
Inductive widget : Type :=
  | StError (msg : string)
  | StWarning (msg : string)
  | StInfo (msg : string)
  | StSuccess (msg : string)
  | StWrite (msg : string)
  | StMarkdown (msg : string)
  | StSidebarSuccess (msg : string)
  | StSidebarWrite (msg : string)
  | StSidebarButton (label : string).

(** An entry of the session history of [GCP_GPT_Assistant.py]. *)
Record Entry : Type := { question : string; answer : string; references : list string }.

(** The state a run works on.  The first group is the outside world (the
    services, the environment and the user's clicks), the second the
    record of what the run did, the third the script's own variables. *)
Record State : Type := {
  bucket : list S3Object;           (* the objects of [datacrux-dev] *)
  indexes : list string;            (* the names Pinecone lists *)
  clock : Z;                        (* the time S3 stamps uploads with *)
  embedding : string → list Z;      (* the answer of the embedding endpoint *)
  neighbours : string → list Z → nat → QueryResult;  (* the answer of an index query *)
  completion : list (string * string) → string;      (* the answer of the completion endpoint *)
  faults : list (option exn);       (* failure injected into each successive remote call *)
  environ : gmap string string;     (* [os.environ], once [load_dotenv()] has run *)
  pressed : string → bool;          (* the side-bar button of this label was clicked *)

  calls : list (call * option exn); (* calls issued, oldest first, with what each raised *)
  screen : list widget;             (* widgets shown, oldest first *)

  ingestion_log : gmap string string;  (* the ledger as the script holds it *)
  history : list Entry              (* [st.session_state.history] *)
}.

Definition set_bucket (b : list S3Object) (s : State) : State :=
  {| bucket := b; indexes := indexes s; clock := clock s; embedding := embedding s;
     neighbours := neighbours s; completion := completion s; faults := faults s;
     environ := environ s; pressed := pressed s; calls := calls s; screen := screen s;
     ingestion_log := ingestion_log s; history := history s |}.

Definition set_indexes (i : list string) (s : State) : State :=
  {| bucket := bucket s; indexes := i; clock := clock s; embedding := embedding s;
     neighbours := neighbours s; completion := completion s; faults := faults s;
     environ := environ s; pressed := pressed s; calls := calls s; screen := screen s;
     ingestion_log := ingestion_log s; history := history s |}.

Definition set_clock (c : Z) (s : State) : State :=
  {| bucket := bucket s; indexes := indexes s; clock := c; embedding := embedding s;
     neighbours := neighbours s; completion := completion s; faults := faults s;
     environ := environ s; pressed := pressed s; calls := calls s; screen := screen s;
     ingestion_log := ingestion_log s; history := history s |}.

Definition set_faults (f : list (option exn)) (s : State) : State :=
  {| bucket := bucket s; indexes := indexes s; clock := clock s; embedding := embedding s;
     neighbours := neighbours s; completion := completion s; faults := f;
     environ := environ s; pressed := pressed s; calls := calls s; screen := screen s;
     ingestion_log := ingestion_log s; history := history s |}.

Definition log_call (c : call) (raised : option exn) (s : State) : State :=
  {| bucket := bucket s; indexes := indexes s; clock := clock s; embedding := embedding s;
     neighbours := neighbours s; completion := completion s; faults := faults s;
     environ := environ s; pressed := pressed s; calls := calls s ++ [(c, raised)];
     screen := screen s; ingestion_log := ingestion_log s; history := history s |}.

Definition show (w : widget) (s : State) : State :=
  {| bucket := bucket s; indexes := indexes s; clock := clock s; embedding := embedding s;
     neighbours := neighbours s; completion := completion s; faults := faults s;
     environ := environ s; pressed := pressed s; calls := calls s;
     screen := screen s ++ [w]; ingestion_log := ingestion_log s; history := history s |}.

Definition set_ingestion_log (l : gmap string string) (s : State) : State :=
  {| bucket := bucket s; indexes := indexes s; clock := clock s; embedding := embedding s;
     neighbours := neighbours s; completion := completion s; faults := faults s;
     environ := environ s; pressed := pressed s; calls := calls s; screen := screen s;
     ingestion_log := l; history := history s |}.

Definition set_history (h : list Entry) (s : State) : State :=
  {| bucket := bucket s; indexes := indexes s; clock := clock s; embedding := embedding s;
     neighbours := neighbours s; completion := completion s; faults := faults s;
     environ := environ s; pressed := pressed s; calls := calls s; screen := screen s;
     ingestion_log := ingestion_log s; history := h |}.

Definition set_environ (e : gmap string string) (s : State) : State :=
  {| bucket := bucket s; indexes := indexes s; clock := clock s; embedding := embedding s;
     neighbours := neighbours s; completion := completion s; faults := faults s;
     environ := e; pressed := pressed s; calls := calls s; screen := screen s;
     ingestion_log := ingestion_log s; history := history s |}.

Definition set_pressed (p : string → bool) (s : State) : State :=
  {| bucket := bucket s; indexes := indexes s; clock := clock s; embedding := embedding s;
     neighbours := neighbours s; completion := completion s; faults := faults s;
     environ := environ s; pressed := p; calls := calls s; screen := screen s;
     ingestion_log := ingestion_log s; history := history s |}.

(** ** The monad of the scripts: state and exceptions *)

Definition M (A : Type) : Type := State → State * (exn + A).

Definition ret {A} (a : A) : M A := λ s, (s, inr a).

Definition bind {A B} (m : M A) (k : A → M B) : M B := λ s,
  match m s with
  | (s', inl e) => (s', inl e)
  | (s', inr a) => k a s'
  end.

Definition raise {A} (e : exn) : M A := λ s, (s, inl e).

(** [try: m except Exception as e: h e] *)
Definition try_except {A} (m : M A) (h : exn → M A) : M A := λ s,
  match m s with
  | (s', inl e) => h e s'
  | (s', inr a) => (s', inr a)
  end.

(** [try: m except <class> as e: h e], for the class of exceptions that
    [catches] accepts; any other exception goes on to the caller. *)
Definition try_except_only {A} (catches : exn → bool) (m : M A) (h : exn → M A) : M A := λ s,
  match m s with
  | (s', inl e) => if catches e then h e s' else (s', inl e)
  | (s', inr a) => (s', inr a)
  end.

Definition get {A} (f : State → A) : M A := λ s, (s, inr (f s)).
Definition modify (f : State → State) : M unit := λ s, (f s, inr tt).

Notation "x <- m ;; k" := (bind m (λ x, k))
  (at level 100, m at next level, right associativity).
Notation "m ;;; k" := (bind m (λ _, k))
  (at level 100, right associativity).

(** [for x in xs: body x] *)
Fixpoint for_each {A} (body : A → M unit) (xs : list A) : M unit :=
  match xs with
  | [] => ret tt
  | x :: xs => body x ;;; for_each body xs
  end.

(** [[f x for x in xs]], where [f] may raise. *)
Fixpoint comprehension {A B} (f : A → M B) (xs : list A) : M (list B) :=
  match xs with
  | [] => ret []
  | x :: xs => y <- f x ;; ys <- comprehension f xs ;; ret (y :: ys)
  end.

(** The state a remote call works on: the failure script has moved on. *)
Definition next (s : State) : State := set_faults (tail (faults s)) s.

(** A call to a remote service: the next entry of the failure script
    decides whether the call fails outright; otherwise the service answers
    from the state ([serve]).  The call is logged with what it raised. *)
Definition remote {A} (c : call) (serve : State → exn + State * A) : M A := λ s,
  let s0 := next s in
  match head (faults s) with
  | Some (Some e) => (log_call c (Some e) s0, inl e)
  | _ =>
      match serve s0 with
      | inl e => (log_call c (Some e) s0, inl e)
      | inr (s1, a) => (log_call c None s1, inr a)
      end
  end.

(** [time.sleep(seconds)] *)
Definition sleep (seconds : Z) : M unit :=
  modify (λ s, log_call (time_sleep seconds) None (set_clock (clock s + seconds) s)).

Definition st_error (msg : string) : M unit := modify (show (StError msg)).
Definition st_warning (msg : string) : M unit := modify (show (StWarning msg)).
Definition st_info (msg : string) : M unit := modify (show (StInfo msg)).
Definition st_success (msg : string) : M unit := modify (show (StSuccess msg)).
Definition st_write (msg : string) : M unit := modify (show (StWrite msg)).
Definition st_markdown (msg : string) : M unit := modify (show (StMarkdown msg)).
Definition st_sidebar_success (msg : string) : M unit := modify (show (StSidebarSuccess msg)).
Definition st_sidebar_write (msg : string) : M unit := modify (show (StSidebarWrite msg)).

(** [st.sidebar.button(label)], without a [key]: Streamlit refuses a
    second button of a label this run has already drawn ([drawn]);
    otherwise the button is drawn and the result tells whether the user
    clicked it. *)
Definition st_sidebar_button (drawn : list string) (label : string) : M bool :=
  if decide (label ∈ drawn) then raise (DuplicateWidgetID label)
  else modify (show (StSidebarButton label)) ;;; get (λ s, pressed s label).

(** [os.getenv(name)] *)
Definition getenv (name : string) : M (option string) := get (λ s, environ s !! name).

(** ** The services *)

(** Configuration shared by the three scripts. *)
Definition bucket_name : string := "datacrux-dev".
Definition log_key : string := "copilot/ingestion_log.json".
Definition prefix : string := "copilot/".

Module S3.

Definition find (key : string) (objs : list S3Object) : option S3Object :=
  List.find (λ o, String.eqb (Key o) key) objs.

Definition remove (key : string) (objs : list S3Object) : list S3Object :=
  filter (λ o, Key o ≠ key) objs.

(** [s3.download_file(Bucket, Key, path)] followed by reading [path]: a
    missing key is an error response of the service. *)
Definition download_file (Bucket key : string) : M body :=
  remote (s3_download_file Bucket key) (λ s,
    match find key (bucket s) with
    | Some o => inr (s, Body o)
    | None => inl (ClientError "An error occurred (404) when calling the HeadObject operation: Not Found")
    end).

(** [s3.upload_file(path, Bucket, Key)]: a single PUT that replaces the
    object. *)
Definition upload_file (data : body) (Bucket key : string) : M unit :=
  remote (s3_upload_file Bucket key data) (λ s,
    inr (set_bucket ({| Key := key; LastModified := clock s; Body := data |}
                       :: remove key (bucket s)) s, tt)).

(** [s3.list_objects_v2(Bucket=..., Prefix=...).get("Contents", [])] *)
Definition list_objects_v2 (Bucket Prefix : string) : M (list S3Object) :=
  remote (s3_list_objects_v2 Bucket Prefix) (λ s,
    inr (s, filter (λ o, Str.startswith (Key o) Prefix) (bucket s))).

(** [s3.delete_object(Bucket=..., Key=...)] *)
Definition delete_object (Bucket key : string) : M unit :=
  remote (s3_delete_object Bucket key) (λ s,
    inr (set_bucket (remove key (bucket s)) s, tt)).

End S3.

Module Pinecone.

(** [pc.list_indexes().names()] *)
Definition list_indexes_names : M (list string) :=
  remote pc_list_indexes (λ s, inr (s, indexes s)).

(** [pc.create_index(name, dimension, metric, spec)] *)
Definition create_index (name : string) (dimension : Z) (metric : string) : M unit :=
  remote (pc_create_index name dimension metric) (λ s,
    if decide (name ∈ indexes s)
    then inl (ServiceError "ALREADY_EXISTS")
    else inr (set_indexes (indexes s ++ [name]) s, tt)).

(** [pc.Index(name)]: a handle on the index of that name.  Whether the
    client contacts the service at this point is the library's business;
    a failure here is left to the failure script. *)
Definition Index (name : string) : M string :=
  remote (pc_Index name) (λ s, inr (s, name)).

(** [index.query(vector=..., top_k=..., include_metadata=True)] *)
Definition query (index : string) (vector : list Z) (top_k : nat) : M QueryResult :=
  remote (index_query index vector top_k) (λ s,
    if decide (index ∈ indexes s)
    then inr (s, neighbours s index vector top_k)
    else inl (ServiceError "NOT_FOUND")).

End Pinecone.

Module OpenAI.

(** [client.embeddings.create(input=..., model=...).data[0].embedding] *)
Definition embeddings (input model : string) : M (list Z) :=
  remote (embeddings_create input model) (λ s, inr (s, embedding s input)).

(** [client.chat.completions.create(model=..., messages=...)
      .choices[0].message.content] *)
Definition chat (model : string) (messages : list (string * string)) : M string :=
  remote (chat_completions_create model messages) (λ s, inr (s, completion s messages)).

(** [OpenAI()]: the client takes its key from the environment and raises
    when there is none; no call goes out. *)
Definition client : M unit :=
  api_key <- getenv "OPENAI_API_KEY" ;;
  match api_key with
  | Some _ => ret tt
  | None =>
      raise (ServiceError
               ("The api_key client option must be set either by passing api_key to the "
                ++ "client or by setting the OPENAI_API_KEY environment variable"))
  end.

End OpenAI.

Module Loader.

(** Modelled from the spec: [ingestion_script.LangchainPineconeLoader] is
    imported by [inventory.py] and [app.py] but its source is not part of
    the three scripts.  The design describes it as an external capability
    that, for what it is given and a target index name, is to "load,
    chunk, embed, and upsert all content; report success or failure as a
    whole".  The scripts construct it with a bucket name, a directory
    path and an index name.  It is a remote call that succeeds or raises;
    it does not write to the bucket. *)
Definition new (bucket_name directory_path index_name : string) : M (string * string * string) :=
  remote (LangchainPineconeLoader bucket_name directory_path index_name)
         (λ s, inr (s, (bucket_name, directory_path, index_name))).

(** Modelled from the spec: [loader.load_and_index()], the whole of the
    load, chunk, embed and upsert step, which succeeds or raises. *)
Definition run (loader : string * string * string) : M unit :=
  let '(b, d, i) := loader in
  remote (load_and_index b d i) (λ s, inr (s, tt)).

(** Modelled from the spec: what [load_and_index] loads.  "All content"
    of what the loader was given, a directory path of the bucket, is every
    object of the bucket under that path. *)
Definition content (directory_path : string) (s : State) : list S3Object :=
  filter (λ o, Str.startswith (Key o) directory_path) (bucket s).

End Loader.

(** [json.load(f)] on what was downloaded. *)
Definition json_load (b : body) : M (gmap string string) :=
  match b with
  | JsonDict d => ret d
  | Raw _ => raise (JSONDecodeError "Expecting value: line 1 column 1 (char 0)")
  end.

(** ** [inventory.py] and page 1 of [app.py]: ledger and ingestion *)

(** The two scripts carry the same ledger helpers and the same ingestion
    orchestrator; they differ in the texts they show. *)
Inductive script : Type := inventory_py | app_py.

(** What the user entered in the ingestion form of the run. *)
Record Inputs : Type := { index_name_input : string; start_ingestion : bool }.

Module Ingestion.

(** [load_ingestion_log()] *)
Definition load_ingestion_log : M (gmap string string) :=
  try_except_only is_ClientError
    (tmp <- S3.download_file bucket_name log_key ;; json_load tmp)
    (λ _, ret ∅).

(** [save_ingestion_log(log_data)] *)
Definition save_ingestion_log (log_data : gmap string string) : M unit :=
  S3.upload_file (JsonDict log_data) bucket_name log_key.

(** The condition of the list comprehension that builds [json_files]. *)
Definition is_snapshot (obj : S3Object) : bool :=
  Str.endswith (Key obj) ".json" && negb (Str.contains (Key obj) "ingestion_log").

(** [json_files], from the [Contents] of the listing. *)
Definition json_files (contents : list S3Object) : list S3Object :=
  Py.sorted_reverse LastModified Z.ltb (filter is_snapshot contents).

(** The object the orchestrator calls the latest: [json_files[0]], when
    [json_files] is not empty. *)
Definition latest_file (contents : list S3Object) : option S3Object :=
  head (json_files contents).

Section script.
Variable file : script.

Definition msg_latest (latest_file_name : string) : string :=
  match file with
  | inventory_py => "📄 Latest JSON in S3: `" ++ latest_file_name ++ "`"
  | app_py => "📄 Latest JSON: `" ++ latest_file_name ++ "`"
  end.

Definition msg_already (recorded : string) : string :=
  match file with
  | inventory_py =>
      "✅ This file has **already been ingested** into Pinecone index: `"
        ++ recorded ++ "`. Skipping ingestion."
  | app_py => "✅ Already ingested into: `" ++ recorded ++ "`"
  end.

Definition msg_none : string :=
  match file with
  | inventory_py => "⚠️ No inventory JSON files found in S3 under the `copilot/` folder."
  | app_py => "Ingest JSON Inventory into Pinecone."
  end.

(** The [try] block that lists the bucket. *)
Definition list_json_files : M (list S3Object) :=
  try_except
    (objects <- S3.list_objects_v2 bucket_name prefix ;; ret (json_files objects))
    (λ e, st_error ("❌ Failed to list S3 objects: " ++ str e) ;;; ret []).

(** The body of the [try] under the "Start Ingestion" button. *)
Definition ingest (latest_file_key latest_file_name index_name : string) : M unit :=
  S3.download_file bucket_name latest_file_key ;;;
  match file with
  | inventory_py =>
      st_info ("🚀 Ingesting `" ++ latest_file_name ++ "` into Pinecone index `"
                 ++ index_name ++ "`...")
  | app_py => ret tt
  end ;;;
  loader <- Loader.new bucket_name prefix index_name ;;
  Loader.run loader ;;;
  modify (λ s, set_ingestion_log (<[latest_file_name := index_name]> (ingestion_log s)) s) ;;;
  log_data <- get ingestion_log ;;
  save_ingestion_log log_data ;;;
  S3.delete_object bucket_name latest_file_key ;;;
  match file with
  | inventory_py =>
      st_success "🧹 Temporary file deleted from S3." ;;;
      st_success "🎉 Ingestion completed and log saved to S3!"
  | app_py => st_success "🎉 Ingestion completed!"
  end.

Definition start_ingestion_handler
    (latest_file_key latest_file_name index_name : string) : M unit :=
  try_except (ingest latest_file_key latest_file_name index_name)
             (λ e, st_error ("❌ Ingestion failed: " ++ str e)).

(** The [if json_files: ... else: ...] statement: what the orchestrator
    does with the candidates it found. *)
Definition ingest_latest (json_files : list S3Object) (inp : Inputs) : M unit :=
  match json_files with
  | latest :: _ =>
      let latest_file_key := Key latest in
      let latest_file_name := Str.basename latest_file_key in
      st_write (msg_latest latest_file_name) ;;;
      ingestion_log <- get ingestion_log ;;
      match ingestion_log !! latest_file_name with
      | Some recorded => st_info (msg_already recorded)
      | None =>
          let index_name := index_name_input inp in
          if Str.truthy index_name && start_ingestion inp
          then start_ingestion_handler latest_file_key latest_file_name index_name
          else ret tt
      end
  | [] => st_warning msg_none
  end.

(** Step 2 of the page, from the listing on: lines 105 to 154 of
    [inventory.py] and 121 to 160 of [app.py].  The ledger it consults is
    the one the script holds, which the script has loaded before; Step 1
    of the page, the fetch of an inventory, is not part of it. *)
Definition orchestrator (inp : Inputs) : M unit :=
  json_files <- list_json_files ;;
  ingest_latest json_files inp.

End script.

End Ingestion.

(** ** [GCP_GPT_Assistant.py]: the QnA script *)

Module Assistant.

(** [get_latest_index_from_s3_log()] *)
Definition get_latest_index_from_s3_log : M (option string) :=
  try_except
    (tmp_log_file <- S3.download_file bucket_name log_key ;;
     ingestion_log <- json_load tmp_log_file ;;
     if decide (ingestion_log = ∅)
     then raise (ValueError "Ingestion log is empty.")
     else
       match Py.sorted_reverse (λ k : string, k) String.ltb (map_to_list ingestion_log).*1 with
       | latest_file :: _ =>
           match ingestion_log !! latest_file with
           | Some index_name => ret (Some index_name)
           | None => raise (KeyError latest_file)
           end
       | [] => raise (IndexError "list index out of range")
       end)
    (λ e, st_error ("Error loading latest index from S3: " ++ str e) ;;; ret None).

Definition dimension : Z := 1536.
Definition metric : string := "euclidean".

(** The body of the [for attempt in range(retries)] loop of
    [create_index_with_retry], over the attempts still to make.  The
    result is what the function returns: [Some true], [Some false], or
    [None] when the loop ends without a [return]. *)
Fixpoint create_index_attempts (index_name : string) (dimension : Z) (metric : string)
    (retries : nat) (delay : Z) (attempts : list nat) : M (option bool) :=
  match attempts with
  | [] => ret None
  | attempt :: rest =>
      returned <-
        try_except
          (names <- Pinecone.list_indexes_names ;;
           (if decide (index_name ∈ names) then ret tt
            else Pinecone.create_index index_name dimension metric) ;;;
           ret (Some true))
          (λ e,
             if Z.of_nat attempt <? Z.of_nat retries - 1
             then sleep delay ;;; ret None
             else
               st_error ("Failed to create index after " ++ pretty retries
                           ++ " attempts: " ++ str e) ;;;
               ret (Some false)) ;;
      match returned with
      | Some b => ret (Some b)
      | None => create_index_attempts index_name dimension metric retries delay rest
      end
  end.

(** [create_index_with_retry(index_name, dimension, metric, spec,
    retries=3, delay=5)] *)
Definition create_index_with_retry (index_name : string) (dimension : Z) (metric : string)
    (retries : nat) (delay : Z) : M (option bool) :=
  create_index_attempts index_name dimension metric retries delay (seq 0 retries).

Definition MODEL : string := "gpt-4o-mini".

(** The fields of a [PenTestVAPTAssistant] that the methods read. *)
Record PenTestVAPTAssistant : Type :=
  { index : string; embeddings_model : string; llm_model : string }.

(** [PenTestVAPTAssistant(index_name=index_name)]: [__init__] takes the
    handle on the index and then builds its OpenAI client. *)
Definition new (index_name : string) : M PenTestVAPTAssistant :=
  handle <- Pinecone.Index index_name ;;
  OpenAI.client ;;;
  ret {| index := handle; embeddings_model := "text-embedding-3-small"; llm_model := MODEL |}.

Section methods.
Variable self : PenTestVAPTAssistant.

Definition generate_embedding (text : string) : M (option (list Z)) :=
  try_except
    (e <- OpenAI.embeddings text (embeddings_model self) ;; ret (Some e))
    (λ e, st_error ("Error generating embedding: " ++ str e) ;;; ret None).

Definition search_index (query : string) (top_k : nat) : M (option QueryResult) :=
  embedding <- generate_embedding query ;;
  match embedding with
  | None => ret None
  | Some embedding =>
      try_except
        (r <- Pinecone.query (index self) embedding top_k ;; ret (Some r))
        (λ e, st_error ("Error querying index: " ++ str e) ;;; ret None)
  end.

(** [result['metadata']['content']]: subscripting the [None] of a match
    without metadata is a [TypeError]; a metadata without the field is a
    [KeyError]. *)
Definition metadata_content (result : Match) : M string :=
  match metadata result with
  | None => raise (TypeError "'NoneType' object is not subscriptable")
  | Some md =>
      match md !! "content" with
      | None => raise (KeyError "content")
      | Some content => ret content
      end
  end.

(** The [for result in ...] loop of [retrieve_documents]; its [except]
    clause handles a [KeyError] and nothing else. *)
Fixpoint collect_documents (results : list Match) (documents : list string)
    : M (list string) :=
  match results with
  | [] => ret documents
  | result :: rest =>
      documents <-
        try_except_only is_KeyError
          (content <- metadata_content result ;; ret (documents ++ [content])%list)
          (λ _, st_error ("Document ID '" ++ id result ++ "' not found in metadata.") ;;;
                ret documents) ;;
      collect_documents rest documents
  end.

Definition retrieve_documents (query_result : option QueryResult) (max_docs : nat)
    : M (list string) :=
  match query_result with
  | None => ret []
  | Some query_result =>
      match matches query_result with
      | None => ret []
      | Some results => collect_documents (take max_docs results) []
      end
  end.

(** [extract_references(report)] *)
Definition extract_references (report : string) : list string :=
  List.filter (λ line, Str.startswith line "Reference:") (Str.split Str.nl_char report).

Definition role_description : string :=
  "= Your Role =" ++ Str.nl ++
  "Your primary role is to act as a technical assistant capable of " ++
  "answering detailed queries about Google Cloud Platform (GCP) " ++
  "infrastructure. You do this by analyzing and retrieving accurate " ++
  "information from a structured JSON dataset that represents the current " ++
  "state of GCP resources (buckets, instances, firewalls, etc.) indexed in " ++
  "Pinecone." ++ Str.nl ++
  Str.nl ++
  "= Your Knowledge Base =" ++ Str.nl ++
  "- Your knowledge base consists exclusively of a structured JSON dump of " ++
  "GCP infrastructure resources ingested into Pinecone." ++ Str.nl ++
  "- You do not use general knowledge or assumptions about GCP. You rely " ++
  "strictly on the actual ingested dataset." ++ Str.nl ++
  "- You understand the JSON structure and the fields of each GCP resource " ++
  "type (such as `encryption`, `lifecycle`, `status`, `name`, etc.)." ++ Str.nl ++
  Str.nl ++
  "= Your Job =" ++ Str.nl ++
  "Upon receiving a user query related to GCP resources (e.g., number of " ++
  "buckets, instances without encryption, existence of lifecycle rules), " ++ "you will:" ++
  Str.nl ++
  "- Search and extract relevant data from the Pinecone-indexed JSON " ++ "documents." ++
  Str.nl ++
  "- Interpret the structure to deliver precise, fact-based answers." ++ Str.nl ++
  "- Present the results clearly with supporting logic and references to " ++
  "the relevant data points." ++ Str.nl ++
  "- If the query is unclear or missing specifics (like project ID, " ++
  "resource type, etc.), ask the user for clarification." ++ Str.nl ++
  Str.nl ++
  "= How to Work with User Queries =" ++ Str.nl ++
  "1. Clarify ambiguous or incomplete questions by requesting specific " ++
  "details from the user." ++ Str.nl ++
  "2. Parse the question to determine the intent (e.g., count, " ++
  "configuration, compliance check)." ++ Str.nl ++
  "3. Search the ingested Pinecone documents to extract matching JSON data." ++ Str.nl ++
  "4. Analyze and summarize the relevant portions with supporting " ++ "explanations." ++
  Str.nl ++
  "5. Present the results in structured, clear, and concise language. Use " ++
  "tables or bullet points when helpful." ++ Str.nl ++
  "6. Do not hallucinate or assume missing data — only respond based on " ++
  "what is found in the indexed dataset." ++ Str.nl ++
  "7. If data is missing or incomplete, state that clearly." ++ Str.nl ++
  Str.nl ++
  "= Example Queries You Should Be Able to Handle =" ++ Str.nl ++
  "- " ++ Str.dquote ++ "How many buckets are configured in our GCP project?" ++
  Str.dquote ++ Str.nl ++
  "- " ++ Str.dquote ++ "List all VM instances without encryption enabled." ++ Str.dquote ++
  Str.nl ++
  "- " ++ Str.dquote ++ "Do any S3 (Cloud Storage) buckets have lifecycle rules defined?" ++
  Str.dquote ++ Str.nl ++
  "- " ++ Str.dquote ++ "Which instances are using public IPs?" ++ Str.dquote ++ Str.nl ++
  "- " ++ Str.dquote ++ "Show firewall rules that allow 0.0.0.0/0 ingress." ++ Str.dquote ++
  Str.nl ++
  Str.nl ++
  "= Outputs =" ++ Str.nl ++
  "Your output should include:" ++ Str.nl ++
  "- A direct answer to the question based on JSON data from Pinecone." ++ Str.nl ++
  "- References to the matching JSON fields and values (e.g., " ++
  "`bucket.lifecycle`, `instance.encryption.enabled`, etc.)." ++ Str.nl ++
  "- Explanation of how the answer was derived." ++ Str.nl ++
  "- Structured formatting when applicable (e.g., tables or bullet points)." ++ Str.nl ++
  "- Clarification questions if the query lacks context or specifics." ++ Str.nl.

Definition build_prompt (query : string) (documents : list string) : string :=
  foldl (λ prompt doc, prompt ++ "- " ++ doc ++ Str.nl)
        ("Question: " ++ query ++ Str.nl ++ Str.nl ++ "Relevant Documents:" ++ Str.nl)
        documents
  ++ Str.nl ++ "Provide a detailed answer to the question above based on the relevant "
  ++ "documents. Include references in the format 'Reference: [source information]'.".

Definition generate_report (query : string) (documents : list string)
    : M (option string * list string) :=
  let prompt := build_prompt query documents in
  let messages := [("system", role_description); ("user", prompt)] in
  try_except
    (content <- OpenAI.chat (llm_model self) messages ;;
     let report := Str.strip content in
     let references := extract_references report in
     ret (Some report, references))
    (λ e, st_error ("An error occurred while generating the report: " ++ str e) ;;;
          ret (None, [])).

Definition query (query : string) : M (option string * list string) :=
  query_result <- search_index query 6 ;;
  match query_result with
  | None => ret (None, [])
  | Some _ =>
      documents <- retrieve_documents query_result 3 ;;
      match documents with
      | [] => st_warning "No relevant documents found." ;;; ret (None, [])
      | _ :: _ => generate_report query documents
      end
  end.
End methods.

(** The set-up of the script, lines 16 to 25: the environment is read and
    the run ends in a [ValueError] when it holds no Pinecone key.
    ([Pinecone(api_key=...)] only stores the key.) *)
Definition setup : M unit :=
  pinecone_api_key <- getenv "PINECONE_API_KEY" ;;
  match pinecone_api_key with
  | Some (String _ _) => ret tt
  | _ => raise (ValueError "PINECONE_API_KEY is not set in environment variables.")
  end.

(** The script from line 47 on, for one run of the page once the set-up
    is done.  [st.stop()] ends the run; an exception nothing catches ends
    it too and is the result.  Page styling and the buttons of the history
    side bar are left out. *)
Definition main (user_question : string) (submit_button : bool) : M unit :=
  index_name <- get_latest_index_from_s3_log ;;
  match index_name with
  | None => ret tt
  | Some index_name =>
      if negb (Str.truthy index_name) then ret tt
      else
        create_index_with_retry index_name dimension metric 3 5 ;;;
        st_sidebar_success ("✅ Using Pinecone Index: `" ++ index_name ++ "`") ;;;
        assistant <- new index_name ;;
        if submit_button && Str.truthy (Str.strip user_question)
        then
          answered <- query assistant user_question ;;
          let '(report, references) := answered in
          match report with
          | Some (String c r as report) =>
              modify (λ s, set_history
                             ((history s ++ [{| question := user_question;
                                               answer := report;
                                               references := references |}])%list) s) ;;;
              st_markdown "**Answer:**" ;;;
              for_each st_markdown (Str.split Str.nl_char report) ;;;
              match references with
              | [] => ret tt
              | _ :: _ =>
                  st_markdown "**References:**" ;;;
                  for_each (λ ref, st_markdown ("- " ++ ref)) references
              end
          | _ => st_write "No response generated."
          end
        else ret tt
  end.

(** A run of [GCP_GPT_Assistant.py]: the set-up, then the page. *)
Definition script (user_question : string) (submit_button : bool) : M unit :=
  setup ;;; main user_question submit_button.

End Assistant.

(** ** Page 2 of [app.py]: the QnA assistant of the combined script *)

Module App.

(** [get_latest_index_from_s3_log()]: the text of the function is that
    of [GCP_GPT_Assistant.py], with the module's [s3] client. *)
Definition get_latest_index_from_s3_log : M (option string) :=
  Assistant.get_latest_index_from_s3_log.

Definition dimension : Z := 1536.
Definition metric : string := "euclidean".

Record PenTestVAPTAssistant : Type :=
  { index : string; embeddings_model : string; llm_model : string }.

(** [PenTestVAPTAssistant(index_name)] *)
Definition new (index_name : string) : M PenTestVAPTAssistant :=
  handle <- Pinecone.Index index_name ;;
  ret {| index := handle; embeddings_model := "text-embedding-3-small";
         llm_model := "gpt-4o-mini" |}.

Section methods.
Variable self : PenTestVAPTAssistant.

Definition generate_embedding (text : string) : M (list Z) :=
  OpenAI.embeddings text (embeddings_model self).

Definition search_index (query : string) (top_k : nat) : M QueryResult :=
  vector <- generate_embedding query ;;
  Pinecone.query (index self) vector top_k.

(** [match['metadata']['content']] *)
Definition metadata_content (result : Match) : M string :=
  match metadata result with
  | None => raise (TypeError "'NoneType' object is not subscriptable")
  | Some md =>
      match md !! "content" with
      | None => raise (KeyError "content")
      | Some content => ret content
      end
  end.

Definition retrieve_documents (results : QueryResult) (max_docs : nat) : M (list string) :=
  comprehension metadata_content (take max_docs (default [] (matches results))).

Definition build_prompt (query : string) (docs : list string) : string :=
  "Question: " ++ query ++ Str.nl ++ Str.nl ++ "Relevant Documents:" ++ Str.nl
  ++ Str.join Str.nl (List.map (λ d, "- " ++ d) docs)
  ++ Str.nl ++ "Provide a detailed answer with references.".

Definition role : string := "= Your Role =" ++ Str.nl ++ "You are a GCP JSON assistant...".

Definition generate_report (query : string) (docs : list string) : M string :=
  let messages := [("system", role); ("user", build_prompt query docs)] in
  content <- OpenAI.chat (llm_model self) messages ;;
  ret (Str.strip content).

Definition query (question : string) : M string :=
  results <- search_index question 6 ;;
  docs <- retrieve_documents results 3 ;;
  match docs with
  | [] => ret "No relevant data found."
  | _ :: _ => generate_report question docs
  end.

End methods.

(** The buttons of the side bar, one for each entry of the history in
    turn: [for q, a in st.session_state.history: if st.sidebar.button(q):
    ...].  [drawn] holds the labels of the buttons drawn so far. *)
Fixpoint history_buttons (entries : list Entry) (drawn : list string) : M unit :=
  match entries with
  | [] => ret tt
  | entry :: rest =>
      clicked <- st_sidebar_button drawn (question entry) ;;
      (if clicked : bool
       then st_markdown "### 📌 Answer" ;;; st_markdown (answer entry)
       else ret tt) ;;;
      history_buttons rest (question entry :: drawn)
  end.

(** The side bar of the page, lines 226 to 231. *)
Definition history_sidebar : M unit :=
  entries <- get history ;;
  match entries with
  | [] => ret tt
  | _ :: _ =>
      st_sidebar_write "### 📜 Previous Questions" ;;;
      history_buttons entries []
  end.

(** Page 2 from line 169 on, after its two headings, for one run.
    [st.stop()] ends the run; an exception nothing catches ends it too and
    is the result.  An entry of the history is a question with its answer:
    its [references] stay empty. *)
Definition qna_page (user_question : string) (submitted : bool) : M unit :=
  index_name <- get_latest_index_from_s3_log ;;
  match index_name with
  | None => ret tt
  | Some index_name =>
      if negb (Str.truthy index_name) then ret tt
      else
        names <- Pinecone.list_indexes_names ;;
        (if decide (index_name ∈ names) then ret tt
         else Pinecone.create_index index_name dimension metric) ;;;
        st_sidebar_success ("✅ Using Pinecone Index: `" ++ index_name ++ "`") ;;;
        (if submitted && Str.truthy user_question
         then
           assistant <- new index_name ;;
           answer <- query assistant user_question ;;
           st_markdown "###  Answer" ;;;
           st_markdown answer ;;;
           modify (λ s, set_history
                          ((history s ++ [{| question := user_question; answer := answer;
                                             references := [] |}])%list) s)
         else ret tt) ;;;
        history_sidebar
  end.

(** The set-up of [app.py], lines 16 to 30: the run ends in a
    [ValueError] when the environment holds no Pinecone key, and the
    module builds its OpenAI client.  ([boto3.client] and
    [Pinecone(api_key=...)] only build clients.) *)
Definition setup : M unit :=
  pinecone_api_key <- getenv "PINECONE_API_KEY" ;;
  match pinecone_api_key with
  | Some (String _ _) => OpenAI.client
  | _ => raise (ValueError "PINECONE_API_KEY not set.")
  end.

(** A run of [app.py] with page 2 selected in the side bar: the set-up,
    the two headings of the page (lines 166 and 167) and the page from
    line 169 on. *)
Definition qna_run (user_question : string) (submitted : bool) : M unit :=
  setup ;;;
  st_markdown "<h1 class='main-title'>GCP-GPT</h1>" ;;;
  st_markdown ("<p class='description'>Ask questions about your GCP infrastructure — "
               ++ "answers are based on latest ingested JSON from Pinecone</p>") ;;;
  qna_page user_question submitted.

End App.

(** ** Auxiliary notions of the statements *)

(** The newest candidate of a listing: a candidate that no candidate is
    more recent than. *)
Definition newest (contents : list S3Object) (obj : S3Object) : Prop :=
  obj ∈ contents ∧ Ingestion.is_snapshot obj = true ∧
  ∀ other, other ∈ contents → Ingestion.is_snapshot other = true →
           LastModified other ≤ LastModified obj.

(** The calls that write to the bucket. *)
Definition is_write (c : call) : bool :=
  match c with
  | s3_upload_file _ _ _ | s3_delete_object _ _ => true
  | _ => false
  end.

(** The error response of S3 for a key that is not in the bucket. *)
Definition not_found : exn :=
  ClientError "An error occurred (404) when calling the HeadObject operation: Not Found".

(** The reading of the ledger contract under which every fetch failure
    other than "object not found" reaches the caller. *)
Definition surfaces_other_failures : Prop :=
  ∀ s s' r e,
    Ingestion.load_ingestion_log s = (s', r) →
    calls s' = (calls s ++ [(s3_download_file bucket_name log_key, Some e)])%list →
    e ≠ not_found →
    r = inl e.

(** The calls to the completion service. *)
Definition is_completion (c : call * option exn) : bool :=
  match c.1 with chat_completions_create _ _ => true | _ => false end.

Definition completion_calls (s : State) : nat := length (List.filter is_completion (calls s)).

(** [result['metadata']['content']], when the match carries a metadata
    and the metadata has the field. *)
Definition content_of (result : Match) : option string :=
  md ← metadata result; md !! "content".

(** The match carries a metadata. *)
Definition has_metadata (result : Match) : bool :=
  match metadata result with Some _ => true | None => false end.

(** What subscripting the metadata of a match without metadata raises. *)
Definition no_metadata : exn := TypeError "'NoneType' object is not subscriptable".

(** What [GCP_GPT_Assistant.py] shows for a match without content. *)
Definition missing_content (result : Match) : widget :=
  StError ("Document ID '" ++ id result ++ "' not found in metadata.").

(** The complaint about a match, if it has no content. *)
Definition complaint (result : Match) : option widget :=
  match content_of result with
  | Some _ => None
  | None => Some (missing_content result)
  end.

(** The greatest key of a ledger in the order in which Python compares
    strings. *)
Definition greatest_key (d : gmap string string) (k : string) : Prop :=
  is_Some (d !! k) ∧ ∀ k', is_Some (d !! k') → String.leb k' k = true.

(** The calls that create an index. *)
Definition is_create (c : call * option exn) : bool :=
  match c.1 with pc_create_index _ _ _ => true | _ => false end.

Definition create_calls (s : State) : nat := length (List.filter is_create (calls s)).

(** The next [n] remote calls are not made to fail by the failure script. *)
Definition quiet (n : nat) (s : State) : Prop :=
  ∀ i e, (i < n)%nat → faults s !! i ≠ Some (Some e).

(** What [list_objects_v2] answers for the prefix of the scripts. *)
Definition listing (s : State) : list S3Object :=
  filter (λ o, Str.startswith (Key o) prefix) (bucket s).

(** The reading of the selection rule over every store object: the
    object of the listing with the greatest timestamp is the one a run
    names as the latest. *)
Definition selects_newest_object : Prop :=
  ∀ file inp s s' r obj,
    quiet 1 s →
    NoDup (LastModified <$> listing s) →
    obj ∈ listing s →
    (∀ other, other ∈ listing s → LastModified other ≤ LastModified obj) →
    Ingestion.orchestrator file inp s = (s', r) →
    ∃ shown,
      screen s' = (screen s ++ StWrite (Ingestion.msg_latest file (Str.basename (Key obj)))
                             :: shown)%list.

(** The UTF-8 encodings of the characters that [str.isspace] accepts. *)
Definition of_bytes (bytes : list nat) : string :=
  foldr (λ b s, String (Ascii.ascii_of_nat b) s) EmptyString bytes.

Definition whitespace : list string :=
  of_bytes <$>
    [[9]; [10]; [11]; [12]; [13]; [28]; [29]; [30]; [31]; [32];
     [194; 133]; [194; 160]; [225; 154; 128];
     [226; 128; 128]; [226; 128; 129]; [226; 128; 130]; [226; 128; 131];
     [226; 128; 132]; [226; 128; 133]; [226; 128; 134]; [226; 128; 135];
     [226; 128; 136]; [226; 128; 137]; [226; 128; 138];
     [226; 128; 168]; [226; 128; 169]; [226; 128; 175]; [226; 129; 159];
     [227; 128; 128]]%nat.

(** Characters next to them that are no white space: U+200B (zero width
    space), U+180E, U+FEFF, U+00A1 and an accented letter. *)
Definition no_whitespace : list string :=
  of_bytes <$>
    [[226; 128; 139]; [225; 160; 142]; [239; 187; 191]; [194; 161]; [195; 169]]%nat.

(** The number of logged calls of a kind. *)
Definition count_calls (kind : call → bool) (s : State) : nat :=
  length (List.filter (λ c : call * option exn, kind c.1) (calls s)).

Definition is_listing (c : call) : bool :=
  match c with pc_list_indexes => true | _ => false end.

Definition is_sleep (c : call) : bool :=
  match c with time_sleep _ => true | _ => false end.

(** The matches of a query result, if any: none for a failed search and
    none for a response without the key. *)
Definition matches_of (query_result : option QueryResult) : list Match :=
  default [] (query_result ≫= matches).

(** ** Sample data for the examples *)

Definition snapshot (key : string) (modified : Z) : S3Object :=
  {| Key := key; LastModified := modified; Body := Raw "{}" |}.

Definition listing3 : list S3Object :=
  [snapshot "copilot/gcp_inventory_20240101-000000.json" 5;
   snapshot "copilot/gcp_inventory_20240301-000000.json" 9;
   snapshot "copilot/gcp_inventory_20240201-000000.json" 7].

Definition report4 : string :=
  "line1" ++ Str.nl ++ "Reference: A" ++ Str.nl ++ "something" ++ Str.nl ++ "Reference: B".

Definition ledger1 : gmap string string :=
  {[ "gcp_inventory_20240301-000000.json" := "inventory-march" ]}.

(** An environment that holds both API keys. *)
Definition environ1 : gmap string string :=
  {[ "OPENAI_API_KEY" := "sk-0000"; "PINECONE_API_KEY" := "pc-0000" ]}.

Definition state0 : State :=
  {| bucket := []; indexes := []; clock := 0;
     embedding := λ _, []; neighbours := λ _ _ _, {| matches := None |};
     completion := λ _, ""; faults := []; environ := environ1; pressed := λ _, false;
     calls := []; screen := []; ingestion_log := ∅; history := [] |}.

Definition bucket1 : list S3Object :=
  {| Key := log_key; LastModified := 3; Body := JsonDict ∅ |} :: listing3.

Definition inputs1 : Inputs := {| index_name_input := "inventory-march"; start_ingestion := true |}.

(** The ledger object is the most recent object of the bucket, as after
    any ingestion; one snapshot is waiting. *)
Definition state_ledger_newest : State :=
  set_bucket [{| Key := log_key; LastModified := 10; Body := JsonDict ∅ |};
              snapshot "copilot/gcp_inventory_20240301-000000.json" 5] state0.

(** The listing, the download and the construction of the loader succeed;
    [load_and_index] fails. *)
Definition state_load_fails : State :=
  set_faults [None; None; None; Some (ServiceError "upsert failed")] (set_bucket bucket1 state0).

Definition access_denied : exn :=
  ClientError "An error occurred (AccessDenied) when calling the GetObject operation: Access Denied".

(** The ledger object exists and holds a record; S3 denies the access. *)
Definition state_denied : State :=
  set_faults [Some access_denied]
    (set_bucket [{| Key := log_key; LastModified := 3; Body := JsonDict ledger1 |}] state0).

(** The ledger object exists; the connection to S3 fails. *)
Definition state_unreachable : State :=
  set_faults [Some (ServiceError "Could not connect to the endpoint URL")]
    (set_bucket [{| Key := log_key; LastModified := 3; Body := JsonDict ledger1 |}] state0).

Definition with_content (i content : string) : Match :=
  {| id := i; metadata := Some {[ "content" := content ]} |}.

Definition without_content (i : string) : Match :=
  {| id := i; metadata := Some {[ "source" := "gcp_inventory.json" ]} |}.

(** Three matches; the second has no [content] in its metadata. *)
Definition matches3 : list Match :=
  [with_content "a" "doc a"; without_content "b"; with_content "c" "doc c"].

Definition assistant1 : Assistant.PenTestVAPTAssistant :=
  {| Assistant.index := "inventory-march";
     Assistant.embeddings_model := "text-embedding-3-small";
     Assistant.llm_model := "gpt-4o-mini" |}.

Definition assistant2 : App.PenTestVAPTAssistant :=
  {| App.index := "inventory-march";
     App.embeddings_model := "text-embedding-3-small";
     App.llm_model := "gpt-4o-mini" |}.

(** The index exists and answers every query with the given matches. *)
Definition state_answering (results : list Match) : State :=
  {| bucket := []; indexes := ["inventory-march"]; clock := 0;
     embedding := λ _, [1; 2; 3]; neighbours := λ _ _ _, {| matches := Some results |};
     completion := λ _, "Two buckets." ++ Str.nl ++ "Reference: doc a";
     faults := []; environ := environ1; pressed := λ _, false;
     calls := []; screen := []; ingestion_log := ∅; history := [] |}.

(** Two snapshots whose names are not in the order of their timestamps. *)
Definition older : S3Object := snapshot "copilot/projects_export.json" 5.

Definition newer : S3Object := snapshot "copilot/gcp_inventory_20240301-000000.json" 9.

(** The older snapshot is in the bucket and a run of the orchestrator
    ingests it into [index-older]; then the newer one is put in the bucket
    and a second run ingests it into [index-newer]. *)
Definition state_after_two_runs : State :=
  let run1 := (Ingestion.orchestrator app_py
                 {| index_name_input := "index-older"; start_ingestion := true |}
                 (set_bucket [older] state0)).1 in
  let fetched := set_bucket (newer :: bucket run1) run1 in
  (Ingestion.orchestrator app_py
     {| index_name_input := "index-newer"; start_ingestion := true |} fetched).1.

Definition timeout : exn := ServiceError "Request timed out".

(** The ledger names [inventory-march]; Pinecone has no such index, and
    each of the three attempts to create it times out. *)
Definition state_create_fails : State :=
  set_faults [None; None; Some timeout; None; Some timeout; None; Some timeout]
    (set_indexes []
       (set_bucket [{| Key := log_key; LastModified := 3; Body := JsonDict ledger1 |}]
          (state_answering matches3))).

Definition state_listing_fails : State :=
  set_faults [Some (ServiceError "Could not connect to the endpoint URL")]
    (set_bucket bucket1 state0).

(** Everything succeeds up to the save of the ledger, which fails. *)
Definition state_save_fails : State :=
  set_faults [None; None; None; None; Some (ServiceError "Connection reset")]
    (set_bucket bucket1 state0).

(** Everything succeeds up to the delete of the snapshot, which fails. *)
Definition state_delete_fails : State :=
  set_faults [None; None; None; None; None; Some (ServiceError "Connection reset")]
    (set_bucket bucket1 state0).

(** Pinecone answers no call: the three listings time out. *)
Definition state_pinecone_down : State :=
  set_faults [Some timeout; Some timeout; Some timeout] state0.

(** The index exists; the embedding endpoint is down. *)
Definition state_openai_down : State :=
  set_faults [Some (ServiceError "Connection error.")] (state_answering matches3).

(** The state after a first ingestion that went through. *)
Definition state_ingested : State :=
  (Ingestion.orchestrator app_py inputs1 (set_bucket bucket1 state0)).1.

(** After the first ingestion, the inventory of April is put in the
    bucket. *)
Definition state_fetched_again : State :=
  set_bucket (snapshot "copilot/gcp_inventory_20240401-000000.json" 12 :: bucket state_ingested)
    state_ingested.

(** The ledger names [inventory-march], the index exists, and it holds
    nothing near any question. *)
Definition state_no_matches : State :=
  set_bucket [{| Key := log_key; LastModified := 3; Body := JsonDict ledger1 |}]
    (state_answering []).

(** * Properties *)

(** ** Strings *)

Lemma append_nil s : "" ++ s = s.
Proof. reflexivity. Qed.

Lemma append_cons c s r : String c s ++ r = String c (s ++ r).
Proof. reflexivity. Qed.

Ltac str_simpl := simpl in *; rewrite ?append_cons, ?append_nil in *.

Lemma startswith_spec s p : Str.startswith s p = true ↔ Str.begins_with p s.
Proof.
  revert s; induction p as [|a p IH]; intros s; simpl.
  - split; [intros _; by exists s | done].
  - destruct s as [|b s]; simpl.
    + split; [done | intros [r Hr]; discriminate].
    + destruct (Ascii.eqb_spec a b) as [->|Hne].
      * rewrite IH. split; intros [r Hr]; exists r; str_simpl; congruence.
      * split; [done | intros [r Hr]; str_simpl; congruence].
Qed.

#[global] Instance begins_with_dec p s : Decision (Str.begins_with p s).
Proof.
  refine (cast_if (decide (Str.startswith s p = true))); by rewrite <- startswith_spec.
Defined.



(** [strip] on each white space character of Python, in front and behind,
    and on characters that are none. *)
Lemma strip_whitespace :
  forallb (λ w, String.eqb (Str.strip (w ++ "Reference: A" ++ w)) "Reference: A")
          whitespace = true ∧
  forallb (λ c, String.eqb (Str.strip (" " ++ c ++ "a b" ++ c ++ Str.nl)) (c ++ "a b" ++ c))
          no_whitespace = true ∧
  Str.strip (String.concat "" whitespace) = "".
Proof. split; [|split]; vm_compute; reflexivity. Qed.

Lemma split_not_nil sep s : Str.split sep s ≠ [].
Proof.
  destruct s as [|c s]; simpl; [done|].
  destruct (Ascii.eqb c sep); [done|]. by destruct (Str.split sep s).
Qed.

(** Joining the pieces with the separator gives the text back. *)
Lemma join_split sep s : Str.join (String sep "") (Str.split sep s) = s.
Proof.
  unfold Str.join. induction s as [|c s IH]; simpl; [done|].
  destruct (Ascii.eqb_spec c sep) as [->|Hne].
  - pose proof (split_not_nil sep s) as Hn.
    simpl. destruct (Str.split sep s) as [|l ls]; [done|].
    simpl in *. by rewrite IH.
  - pose proof (split_not_nil sep s) as Hn.
    destruct (Str.split sep s) as [|l ls]; [done|].
    destruct ls as [|l' ls]; str_simpl; by rewrite <- IH.
Qed.

(** No piece contains the separator. *)
Lemma split_no_sep sep s line :
  line ∈ Str.split sep s → ∀ front rest, line ≠ front ++ String sep rest.
Proof.
  revert line; induction s as [|c s IH]; intros line; simpl.
  - intros ->%list_elem_of_singleton [|] ? ?; discriminate.
  - destruct (Ascii.eqb_spec c sep) as [->|Hne].
    + intros [->|Hin]%elem_of_cons; [intros [|] ? ?; discriminate | by apply IH].
    + pose proof (split_not_nil sep s) as Hn.
      destruct (Str.split sep s) as [|l ls]; [done|].
      intros [->|Hin]%elem_of_cons.
      * intros [|c' f] r Heq; str_simpl; [congruence|].
        injection Heq as _ Heq. eapply (IH l); [left | exact Heq].
      * apply IH. by right.
Qed.

(** ** Sorting *)

Section PyFacts.
Context {A K : Type} (key : A → K) (lt : K → K → bool).

Local Abbreviation insert_desc := (Py.insert_desc key lt).
Local Abbreviation sorted_reverse := (Py.sorted_reverse key lt).
Local Abbreviation first_max := (Py.first_max key lt).

Lemma insert_desc_perm x l : insert_desc x l ≡ₚ x :: l.
Proof.
  induction l as [|y l IH]; simpl; [done|].
  destruct (lt (key x) (key y)); [|done].
  rewrite IH. apply Permutation_swap.
Qed.

Lemma sorted_reverse_perm l : sorted_reverse l ≡ₚ l.
Proof.
  induction l as [|x l IH]; simpl; [done|].
  by rewrite insert_desc_perm, IH.
Qed.

Lemma head_insert_desc x l : head (insert_desc x l) = first_max x (head l).
Proof. destruct l as [|y l]; simpl; [done|]. by destruct (lt (key x) (key y)). Qed.

Lemma head_sorted_reverse l : head (sorted_reverse l) = foldr first_max None l.
Proof.
  induction l as [|x l IH]; simpl; [done|].
  by rewrite head_insert_desc, IH.
Qed.

Lemma sorted_reverse_nil_iff l : sorted_reverse l = [] ↔ l = [].
Proof.
  split; [|by intros ->].
  intros H. apply Permutation_nil_r. rewrite <- H. symmetry. apply sorted_reverse_perm.
Qed.

(** With a transitive "not smaller" relation, the first element of the
    sorted list is at least every element of the input. *)
Section order.
Hypothesis lt_trans_neg :
  ∀ a b c, lt b a = false → lt c b = false → lt c a = false.
Hypothesis lt_asym : ∀ a b, lt a b = true → lt b a = false.

Lemma insert_desc_sorted x l :
  StronglySorted (λ a b, lt (key a) (key b) = false) l →
  StronglySorted (λ a b, lt (key a) (key b) = false) (insert_desc x l).
Proof.
  induction 1 as [|y l Hl IH Hy]; simpl; [repeat constructor|].
  destruct (lt (key x) (key y)) eqn:E.
  - constructor; [done|].
    apply Forall_forall. intros z Hz.
    rewrite insert_desc_perm in Hz.
    apply elem_of_cons in Hz as [->|Hz]; [by apply lt_asym|].
    by eapply Forall_forall in Hy.
  - constructor; [by constructor|].
    constructor; [done|].
    eapply Forall_impl; [exact Hy|]. simpl. intros z Hz.
    by eapply lt_trans_neg.
Qed.

Lemma sorted_reverse_sorted l :
  StronglySorted (λ a b, lt (key a) (key b) = false) (sorted_reverse l).
Proof.
  induction l as [|x l IH]; simpl; [constructor|]. by apply insert_desc_sorted.
Qed.

Lemma head_sorted_reverse_max l h y :
  head (sorted_reverse l) = Some h → y ∈ l → lt (key h) (key y) = false.
Proof.
  intros Hh Hy. pose proof (sorted_reverse_sorted l) as Hs.
  rewrite <- sorted_reverse_perm in Hy.
  destruct (sorted_reverse l) as [|h' t]; simplify_eq/=.
  apply StronglySorted_inv in Hs as [_ Hall].
  apply elem_of_cons in Hy as [->|Hy].
  - destruct (lt (key h) (key h)) eqn:E; [|done].
    by rewrite (lt_asym _ _ E) in E.
  - by eapply Forall_forall in Hall.
Qed.
End order.

End PyFacts.

Lemma NoDup_fmap_eq {A B} (f : A → B) (l : list A) x y :
  NoDup (f <$> l) → x ∈ l → y ∈ l → f x = f y → x = y.
Proof.
  induction l as [|a l IH]; csimpl; [by intros _ ?%elem_of_nil|].
  intros [Hna Hnd]%NoDup_cons [->|Hx]%elem_of_cons [->|Hy]%elem_of_cons Hf; auto.
  - destruct Hna. rewrite Hf. by apply list_elem_of_fmap_2.
  - destruct Hna. rewrite <- Hf. by apply list_elem_of_fmap_2.
Qed.

(** ** The snapshot the orchestrator selects *)

Lemma Zltb_trans_neg a b c : (b <? a) = false → (c <? b) = false → (c <? a) = false.
Proof. rewrite !Z.ltb_ge. lia. Qed.

Lemma Zltb_asym a b : (a <? b) = true → (b <? a) = false.
Proof. rewrite Z.ltb_lt, Z.ltb_ge. lia. Qed.

Lemma json_files_perm contents :
  Ingestion.json_files contents ≡ₚ filter Ingestion.is_snapshot contents.
Proof. apply sorted_reverse_perm. Qed.

Lemma elem_of_json_files contents obj :
  obj ∈ Ingestion.json_files contents ↔ Ingestion.is_snapshot obj = true ∧ obj ∈ contents.
Proof.
  rewrite json_files_perm, list_elem_of_filter.
  by rewrite Is_true_true.
Qed.

Lemma latest_file_elem_of contents obj :
  Ingestion.latest_file contents = Some obj → obj ∈ Ingestion.json_files contents.
Proof. apply head_Some_elem_of. Qed.

Lemma latest_file_max contents obj other :
  Ingestion.latest_file contents = Some obj →
  other ∈ Ingestion.json_files contents →
  LastModified other ≤ LastModified obj.
Proof.
  intros Hh Ho. rewrite json_files_perm in Ho.
  apply Z.ltb_ge.
  eapply (head_sorted_reverse_max LastModified Z.ltb Zltb_trans_neg Zltb_asym); eauto.
Qed.

Lemma latest_file_None contents :
  Ingestion.latest_file contents = None ↔ Ingestion.json_files contents = [].
Proof. unfold Ingestion.latest_file. by destruct (Ingestion.json_files contents). Qed.

Lemma latest_file_newest contents obj :
  NoDup (LastModified <$> contents) →
  Ingestion.latest_file contents = Some obj ↔ newest contents obj.
Proof.
  intros Hnd. split.
  - intros Hh. pose proof (latest_file_elem_of _ _ Hh) as [Hs Hin]%elem_of_json_files.
    repeat split; [done..|]. intros other Ho Hso.
    eapply latest_file_max; [done|]. by apply elem_of_json_files.
  - intros (Hin & Hs & Hmax).
    destruct (Ingestion.latest_file contents) as [h|] eqn:Hh.
    + pose proof (latest_file_elem_of _ _ Hh) as [Hsh Hinh]%elem_of_json_files.
      f_equal. apply (NoDup_fmap_eq LastModified contents); [done..|].
      apply Z.le_antisymm; [by apply Hmax|].
      eapply latest_file_max; [done|]. by apply elem_of_json_files.
    + apply latest_file_None in Hh.
      assert (obj ∈ Ingestion.json_files contents) as Hc by by apply elem_of_json_files.
      rewrite Hh in Hc. by apply elem_of_nil in Hc.
Qed.

(** ** Reference extraction *)

Lemma filter_startswith (p : string) (lines : list string) :
  List.filter (λ line, Str.startswith line p) lines = filter (Str.begins_with p) lines.
Proof.
  induction lines as [|line lines IH]; [done|].
  cbn [List.filter]. rewrite filter_cons, IH.
  destruct (Str.startswith line p) eqn:E; case_decide as Hb; try done.
  - destruct Hb. by apply startswith_spec.
  - apply startswith_spec in Hb. congruence.
Qed.

(** C6.  The lines of a completion text are the pieces between its
    newlines (joined by newlines they give the text back, and none holds a
    newline).  Reference extraction returns exactly the lines that begin
    with the literal [Reference:], each as often as it occurs and in the
    order of the text; on the four-line example it returns the two
    reference lines, and on a text none of whose lines begins with the
    prefix it returns the empty list. *)
Theorem extract_references_spec (report : string) :
  let lines := Str.split Str.nl_char report in
  Str.join Str.nl lines = report ∧
  (∀ line, line ∈ lines → ∀ front rest, line ≠ front ++ Str.nl ++ rest) ∧
  Assistant.extract_references report = filter (Str.begins_with "Reference:") lines ∧
  Assistant.extract_references report `sublist_of` lines ∧
  (∀ line, line ∈ Assistant.extract_references report ↔
           line ∈ lines ∧ ∃ rest, line = "Reference:" ++ rest) ∧
  Assistant.extract_references report4 = ["Reference: A"; "Reference: B"] ∧
  ((∀ line, line ∈ lines → ¬ ∃ rest, line = "Reference:" ++ rest) →
   Assistant.extract_references report = []).
Proof.
  intros lines. unfold Assistant.extract_references. fold lines.
  rewrite filter_startswith.
  split; [apply join_split|].
  split; [intros line Hl front rest; exact (split_no_sep Str.nl_char report line Hl front rest)|].
  split; [done|].
  split; [apply sublist_filter|].
  split; [intros line; rewrite list_elem_of_filter; unfold Str.begins_with; tauto|].
  split; [by vm_compute|].
  intros Hnone. induction lines as [|l ls IH]; [done|].
  rewrite filter_cons. case_decide as Hb.
  - destruct (Hnone l); [left | exact Hb].
  - apply IH. intros line Hl. apply Hnone. by right.
Qed.

(** ** Running the monad *)

Lemma ret_inv {A} (a : A) s s' r : ret a s = (s', r) → s' = s ∧ r = inr a.
Proof. by intros [= <- <-]. Qed.

Lemma raise_inv {A} (e : exn) s s' (r : exn + A) : raise e s = (s', r) → s' = s ∧ r = inl e.
Proof. by intros [= <- <-]. Qed.

Lemma get_inv {A} (f : State → A) s s' r : get f s = (s', r) → s' = s ∧ r = inr (f s).
Proof. by intros [= <- <-]. Qed.

Lemma modify_inv (f : State → State) s s' r : modify f s = (s', r) → s' = f s ∧ r = inr tt.
Proof. by intros [= <- <-]. Qed.

Lemma bind_inv {A B} (m : M A) (k : A → M B) s s' r :
  bind m k s = (s', r) →
  (∃ e, m s = (s', inl e) ∧ r = inl e) ∨ (∃ s1 a, m s = (s1, inr a) ∧ k a s1 = (s', r)).
Proof.
  unfold bind. destruct (m s) as [s1 [e|a]]; [intros [= <- <-]|intros H]; eauto.
Qed.

Lemma try_except_inv {A} (m : M A) (h : exn → M A) s s' r :
  try_except m h s = (s', r) →
  (∃ s1 e, m s = (s1, inl e) ∧ h e s1 = (s', r)) ∨ (∃ a, m s = (s', inr a) ∧ r = inr a).
Proof.
  unfold try_except. destruct (m s) as [s1 [e|a]]; [intros H|intros [= <- <-]]; eauto.
Qed.

Lemma try_except_only_inv {A} catches (m : M A) (h : exn → M A) s s' r :
  try_except_only catches m h s = (s', r) →
  (∃ s1 e, m s = (s1, inl e) ∧ catches e = true ∧ h e s1 = (s', r))
  ∨ (∃ e, m s = (s', inl e) ∧ catches e = false ∧ r = inl e)
  ∨ (∃ a, m s = (s', inr a) ∧ r = inr a).
Proof.
  unfold try_except_only. destruct (m s) as [s1 [e|a]].
  - destruct (catches e) eqn:E; [intros H|intros [= <- <-]]; eauto 10.
  - intros [= <- <-]; eauto 10.
Qed.

Lemma remote_inv {A} c (serve : State → exn + State * A) s s' r :
  remote c serve s = (s', r) →
  (∃ e, s' = log_call c (Some e) (next s) ∧ r = inl e
        ∧ (head (faults s) = Some (Some e) ∨ serve (next s) = inl e))
  ∨ (∃ s1 a, s' = log_call c None s1 ∧ r = inr a ∧ serve (next s) = inr (s1, a)).
Proof.
  unfold remote.
  destruct (head (faults s)) as [[e|]|] eqn:Hf.
  - intros [= <- <-]; eauto 10.
  - destruct (serve (next s)) as [e|[s1 a]] eqn:Hs; intros [= <- <-]; eauto 10.
  - destruct (serve (next s)) as [e|[s1 a]] eqn:Hs; intros [= <- <-]; eauto 10.
Qed.

Lemma inl_eq_inv {A B} (a a' : A) : @inl A B a = inl a' → a = a'.
Proof. congruence. Qed.

Lemma inr_eq_inv {A B} (b b' : B) : @inr A B b = inr b' → b = b'.
Proof. congruence. Qed.

Lemma pair_eq_inv {A B} (a a' : A) (b b' : B) : (a, b) = (a', b') → a = a' ∧ b = b'.
Proof. split; congruence. Qed.

(** Reading a field of a state that a setter built. *)
Ltac st_simpl :=
  cbn [bucket indexes clock embedding neighbours completion faults environ pressed calls
       screen ingestion_log history set_bucket set_indexes set_clock set_faults log_call show
       set_ingestion_log set_history set_environ set_pressed next] in *.

Ltac unfold_st :=
  unfold st_error, st_warning, st_info, st_success, st_write, st_markdown,
    st_sidebar_success, st_sidebar_write, sleep in *.

(** One step of inversion of a run [m s = (s', r)]. *)
Ltac inv_run_step :=
  match goal with
  | H : inl _ = inr _ |- _ => discriminate H
  | H : inr _ = inl _ |- _ => discriminate H
  | H : inl _ = inl _ |- _ => apply inl_eq_inv in H
  | H : inr _ = inr _ |- _ => apply inr_eq_inv in H
  | H : (_, _) = (_, _) |- _ => apply pair_eq_inv in H as [? ?]
  | H : ret _ _ = _ |- _ => apply ret_inv in H as [? ?]
  | H : raise _ _ = _ |- _ => apply raise_inv in H as [? ?]
  | H : get _ _ = _ |- _ => apply get_inv in H as [? ?]
  | H : modify _ _ = _ |- _ => apply modify_inv in H as [? ?]
  | H : bind _ _ _ = _ |- _ =>
      apply bind_inv in H as [(? & H & ?)|(? & ? & H & ?)]
  | H : try_except _ _ _ = _ |- _ =>
      apply try_except_inv in H as [(? & ? & H & ?)|(? & H & ?)]
  | H : try_except_only _ _ _ _ = _ |- _ =>
      apply try_except_only_inv in H as [(? & ? & H & ? & ?)|[(? & H & ? & ?)|(? & H & ?)]]
  | H : remote _ _ _ = _ |- _ =>
      apply remote_inv in H as [(? & ? & ? & H)|(? & ? & ? & ? & H)]; cbv beta in H
  | H : (if ?b then _ else _) = inr _ |- _ => destruct b eqn:?
  | H : (match ?x with _ => _ end) = inr _ |- _ => destruct x eqn:?
  | H : (if ?b then _ else _) _ = (_, _) |- _ => destruct b eqn:?
  | H : (match ?x with _ => _ end) _ = (_, _) |- _ => destruct x eqn:?
  end.

Ltac unfold_services :=
  unfold S3.list_objects_v2, S3.download_file, S3.upload_file, S3.delete_object,
    Loader.new, Loader.run, Pinecone.list_indexes_names, Pinecone.create_index,
    Pinecone.Index, Pinecone.query, OpenAI.embeddings, OpenAI.chat, json_load in *.

Ltac inv_run := unfold_services; unfold_st; repeat (inv_run_step; subst); st_simpl.

(** The calls of a run, once the log is known to extend the one before. *)
Ltac new_calls H :=
  rewrite <- ?app_assoc in H; try change (?l = ?l ++ ?new)%list with (l ++ [] = l ++ new)%list in H;
  apply app_inv_head in H; cbn [app] in H; subst.

Lemma quiet_head n s e : quiet (S n) s → head (faults s) ≠ Some (Some e).
Proof. intros Hq. rewrite head_lookup. apply Hq. lia. Qed.

(** A failure injected into the call number [i] from now contradicts a
    quiet failure script. *)
Ltac quiet_contra Hq :=
  match goal with
  | H : head _ = Some (Some ?e) |- _ =>
      rewrite head_lookup, ?lookup_tail in H; exfalso; eapply Hq; [|exact H]; lia
  end.

Ltac call_cases H :=
  rewrite ?elem_of_cons, ?elem_of_nil in H;
  repeat match type of H with
         | _ ∨ _ => destruct H as [H|H]
         | False => destruct H
         end;
  try discriminate H;
  try (let Hc := fresh in let Ho := fresh in
       apply pair_eq_inv in H as [Hc Ho];
       try discriminate Hc; try discriminate Ho;
       try (injection Hc; clear Hc; intros);
       try (injection Ho; clear Ho; intros);
       subst).

Ltac unfold_orchestrator H :=
  unfold Ingestion.orchestrator, Ingestion.list_json_files, Ingestion.ingest_latest,
    Ingestion.start_ingestion_handler, Ingestion.ingest, Ingestion.save_ingestion_log in H.

(** ** The ingestion orchestrator *)

(** C2.  Whatever the ledger and the candidate list, when the base name of
    the first candidate (the latest) is a key of the ledger, the
    orchestrator issues no call at all (no download, no loader, no save of
    the ledger, no delete), leaves bucket, index list and ledger as they
    are, and shows the index name the ledger holds for that file. *)
Theorem already_ingested_is_skipped
    (file : script) (inp : Inputs) (json_files : list S3Object)
    (latest : S3Object) (recorded : string) (s : State) :
  head json_files = Some latest →
  ingestion_log s !! Str.basename (Key latest) = Some recorded →
  ∃ s', Ingestion.ingest_latest file json_files inp s = (s', inr tt) ∧
        calls s' = calls s ∧ bucket s' = bucket s ∧ indexes s' = indexes s ∧
        ingestion_log s' = ingestion_log s ∧
        screen s' = (screen s ++
                       [StWrite (Ingestion.msg_latest file (Str.basename (Key latest)));
                        StInfo (Ingestion.msg_already file recorded)])%list ∧
        ∃ front rest, Ingestion.msg_already file recorded
                      = front ++ "`" ++ recorded ++ "`" ++ rest.
Proof.
  intros Hh Hl. destruct json_files as [|latest' rest]; simplify_eq/=.
  eexists. split.
  - unfold Ingestion.ingest_latest, bind, st_write, st_info, get, modify.
    cbn [show ingestion_log]. rewrite Hl. reflexivity.
  - st_simpl. rewrite <- app_assoc. repeat split; try done.
    destruct file; cbn [Ingestion.msg_already].
    + by exists "✅ This file has **already been ingested** into Pinecone index: ",
                ". Skipping ingestion.".
    + by exists "✅ Already ingested into: ", "".
Qed.

Lemma already_ingested_is_skipped_witness :
  ∃ s', Ingestion.ingest_latest app_py (Ingestion.json_files listing3)
          {| index_name_input := "fresh"; start_ingestion := true |}
          (set_ingestion_log ledger1 state0) = (s', inr tt)
        ∧ calls s' = []
        ∧ screen s' = [StWrite "📄 Latest JSON: `gcp_inventory_20240301-000000.json`";
                       StInfo "✅ Already ingested into: `inventory-march`"].
Proof.
  destruct (already_ingested_is_skipped app_py
              {| index_name_input := "fresh"; start_ingestion := true |}
              (Ingestion.json_files listing3)
              (snapshot "copilot/gcp_inventory_20240301-000000.json" 9)
              "inventory-march" (set_ingestion_log ledger1 state0))
    as (s' & Hrun & Hcalls & _ & _ & _ & Hscreen & _).
  - reflexivity.
  - by vm_compute.
  - exists s'. by repeat split.
Defined.

(** C3, as stated, fails: over every list of store objects, the object
    of the listing with the greatest timestamp would be the one selected;
    with the ledger object as the most recent object of the bucket, the
    run names the snapshot, for the candidate filter comes first. *)
Lemma newest_object_is_not_selected : ¬ selects_newest_object.
Proof.
  intros H.
  destruct (H app_py inputs1 state_ledger_newest
              (Ingestion.orchestrator app_py inputs1 state_ledger_newest).1
              (Ingestion.orchestrator app_py inputs1 state_ledger_newest).2
              {| Key := log_key; LastModified := 10; Body := JsonDict ∅ |})
    as [shown Hshown].
  - intros i e Hi. by destruct i.
  - apply (bool_decide_unpack _). vm_compute. reflexivity.
  - apply list_elem_of_here.
  - intros other Hin. vm_compute in Hin.
    apply elem_of_cons in Hin as [->|Hin]; [cbn; lia|].
    apply elem_of_cons in Hin as [->|Hin]; [cbn; lia|].
    by apply elem_of_nil in Hin.
  - apply surjective_pairing.
  - vm_compute in Hshown. discriminate Hshown.
Qed.

(** C3, amended.  Whatever the order in which S3 lists the objects
    under the prefix, when their timestamps are pairwise distinct the
    object a run of the orchestrator selects as the latest is the snapshot
    candidate (key ending in [.json], no [ingestion_log] in it) of
    maximal timestamp: the run shows the name of that object, and what it
    downloads and deletes is that object.  An object that is no candidate,
    such as the ledger, is not selected however recent it is. *)
Theorem latest_file_is_newest
    (file : script) (inp : Inputs) (s s' : State) (r : exn + unit)
    (contents : list S3Object) (obj : S3Object) :
  quiet 1 s →
  listing s ≡ₚ contents →
  NoDup (LastModified <$> contents) →
  obj ∈ contents →
  Ingestion.is_snapshot obj = true →
  (∀ other, other ∈ contents → Ingestion.is_snapshot other = true →
            LastModified other ≤ LastModified obj) →
  Ingestion.orchestrator file inp s = (s', r) →
  (∃ shown,
     screen s' = (screen s ++ StWrite (Ingestion.msg_latest file (Str.basename (Key obj)))
                            :: shown)%list) ∧
  (∀ new, calls s' = (calls s ++ new)%list →
          ∀ Bucket key o,
            (s3_download_file Bucket key, o) ∈ new ∨ (s3_delete_object Bucket key, o) ∈ new →
            key = Key obj).
Proof.
  intros Hq Hperm Hnd Hin Hsnap Hmax H.
  assert (Ingestion.latest_file (listing s) = Some obj) as Hlatest.
  { apply latest_file_newest; [by rewrite Hperm|].
    split; [by rewrite Hperm|]. split; [done|].
    intros other Ho. apply Hmax. by rewrite <- Hperm. }
  unfold Ingestion.latest_file, listing in Hlatest.
  unfold_orchestrator H.
  inv_run.
  all: try match goal with H : _ ∨ _ |- _ => destruct H as [H|H]; try discriminate H end.
  all: try quiet_contra Hq.
  all: rewrite Heql in Hlatest; try discriminate Hlatest.
  all: cbn [head] in Hlatest; apply (inj Some) in Hlatest; subst.
  all: split; [rewrite <- ?app_assoc; by eexists|].
  all: intros new Hc Bucket key o Hcall; new_calls Hc.
  all: destruct Hcall as [Hcall|Hcall]; call_cases Hcall; done.
Qed.

Lemma latest_file_is_newest_witness :
  ∃ shown,
    screen (Ingestion.orchestrator app_py inputs1 (set_bucket bucket1 state0)).1
    = StWrite "📄 Latest JSON: `gcp_inventory_20240301-000000.json`" :: shown.
Proof.
  destruct (latest_file_is_newest app_py inputs1 (set_bucket bucket1 state0)
              (Ingestion.orchestrator app_py inputs1 (set_bucket bucket1 state0)).1
              (Ingestion.orchestrator app_py inputs1 (set_bucket bucket1 state0)).2
              (reverse (listing (set_bucket bucket1 state0)))
              (snapshot "copilot/gcp_inventory_20240301-000000.json" 9))
    as [[shown Hshown] _].
  - intros i e Hi. by destruct i.
  - symmetry. apply reverse_Permutation.
  - apply (bool_decide_unpack _). vm_compute. reflexivity.
  - vm_compute. do 1 apply list_elem_of_further. apply list_elem_of_here.
  - reflexivity.
  - intros other Hin _. vm_compute in Hin.
    repeat (apply elem_of_cons in Hin as [->|Hin]; [cbn; lia|]).
    by apply elem_of_nil in Hin.
  - apply surjective_pairing.
  - exists shown. exact Hshown.
Defined.

Lemma find_Some_key key objs o : S3.find key objs = Some o → Key o = key ∧ o ∈ objs.
Proof.
  unfold S3.find. intros H. pose proof (find_some _ _ H) as [Hin Heq].
  split; [by apply String.eqb_eq | by apply list_elem_of_In].
Qed.

(** Case analysis of a membership [(c, o) ∈ [x1; ...; xn]]. *)
Ltac in_cases H :=
  rewrite ?elem_of_cons, ?elem_of_nil in H;
  repeat match type of H with
         | _ ∨ _ => destruct H as [H|H]
         | False => destruct H
         end;
  try discriminate H;
  try (let Hc := fresh in let Ho := fresh in
       injection H as Hc Ho;
       try discriminate Hc; try discriminate Ho;
       try (injection Hc; clear Hc; intros);
       try (injection Ho; clear Ho; intros);
       subst).

(** C1.  In every run of the orchestrator in which [load_and_index]
    raises, the run ends with the failure shown and nothing else done: the
    bucket is what it was (the ledger object as persisted, and the selected
    snapshot still there), the ledger held by the script has no new record,
    and the run issued no upload (no save of the ledger) and no delete.
    The snapshot the run had selected and downloaded is still the latest
    candidate of the bucket and still absent from the ledger, so a retried
    run selects it again. *)
Theorem failed_load_keeps_ledger_and_snapshot
    (file : script) (inp : Inputs) (s s' : State) (r : exn + unit)
    (new : list (call * option exn)) (b d i : string) (e : exn) :
  Ingestion.orchestrator file inp s = (s', r) →
  calls s' = (calls s ++ new)%list →
  (load_and_index b d i, Some e) ∈ new →
  r = inr tt ∧
  last (screen s') = Some (StError ("❌ Ingestion failed: " ++ str e)) ∧
  bucket s' = bucket s ∧
  ingestion_log s' = ingestion_log s ∧
  (∀ c o, (c, o) ∈ new → is_write c = false) ∧
  ∃ latest,
    Ingestion.latest_file (filter (λ o, Str.startswith (Key o) prefix) (bucket s'))
      = Some latest ∧
    (s3_download_file bucket_name (Key latest), None) ∈ new ∧
    latest ∈ bucket s' ∧
    ingestion_log s' !! Str.basename (Key latest) = None.
Proof.
  intros H Hc Hin.
  unfold Ingestion.orchestrator, Ingestion.list_json_files, Ingestion.ingest_latest,
    Ingestion.start_ingestion_handler, Ingestion.ingest, Ingestion.save_ingestion_log in H.
  inv_run.
  all: new_calls Hc.
  all: in_cases Hin.
  all: split; [done|]; split; [apply last_snoc|]; split; [done|]; split; [done|].
  all: split; [intros c o Hin; by in_cases Hin|].
  all: exists s0; unfold Ingestion.latest_file; rewrite Heql.
  all: split; [done|]; split; [rewrite !elem_of_cons; auto|]; split; [|done].
  all: assert (s0 ∈ Ingestion.json_files
                      (filter (λ o, Str.startswith (Key o) prefix) (bucket s)))
         as [_ [_ Hin]%list_elem_of_filter]%elem_of_json_files
         by (rewrite Heql; left).
  all: done.
Qed.

Lemma failed_load_keeps_ledger_and_snapshot_witness :
  let s' := (Ingestion.orchestrator app_py inputs1 state_load_fails).1 in
  let retried := (Ingestion.orchestrator app_py inputs1 s').1 in
  bucket s' = bucket1 ∧ ingestion_log s' = ∅ ∧
  last (screen s') = Some (StError "❌ Ingestion failed: upsert failed") ∧
  ingestion_log retried !! "gcp_inventory_20240301-000000.json" = Some "inventory-march".
Proof.
  intros s' retried.
  destruct (failed_load_keeps_ledger_and_snapshot app_py inputs1 state_load_fails s'
              (Ingestion.orchestrator app_py inputs1 state_load_fails).2
              [(s3_list_objects_v2 bucket_name prefix, None);
               (s3_download_file bucket_name "copilot/gcp_inventory_20240301-000000.json", None);
               (LangchainPineconeLoader bucket_name prefix "inventory-march", None);
               (load_and_index bucket_name prefix "inventory-march",
                Some (ServiceError "upsert failed"))]
              bucket_name prefix "inventory-march" (ServiceError "upsert failed"))
    as (_ & Hscreen & Hbucket & Hlog & _).
  - apply surjective_pairing.
  - by vm_compute.
  - rewrite !elem_of_cons. auto.
  - split; [done|]. split; [done|]. split; [done|]. by vm_compute.
Defined.

(** ** The ledger object is not a snapshot *)

Lemma log_key_not_snapshot obj : Ingestion.is_snapshot obj = true → Key obj ≠ log_key.
Proof. unfold Ingestion.is_snapshot. intros H Heq. rewrite Heq in H. by vm_compute in H. Qed.


Lemma find_cons key o objs :
  S3.find key (o :: objs) = if String.eqb (Key o) key then Some o else S3.find key objs.
Proof. reflexivity. Qed.

Lemma find_remove_ne key key' objs :
  key ≠ key' → S3.find key (S3.remove key' objs) = S3.find key objs.
Proof.
  intros Hne. unfold S3.remove. induction objs as [|o objs IH]; [done|].
  rewrite filter_cons. case_decide as Hk.
  - rewrite !find_cons, IH. done.
  - rewrite find_cons, IH.
    destruct (String.eqb_spec (Key o) key); [congruence | done].
Qed.


(** ** The ingestion ledger *)

(** C4, as stated, fails: with the ledger object in the bucket and the
    access to it denied, [load_ingestion_log] returns the empty mapping. *)
Lemma load_ingestion_log_hides_denied_access : ¬ surfaces_other_failures.
Proof.
  intros Hclaim.
  specialize (Hclaim state_denied
                (Ingestion.load_ingestion_log state_denied).1
                (Ingestion.load_ingestion_log state_denied).2 access_denied).
  assert ((Ingestion.load_ingestion_log state_denied).2 = inr ∅) as Hr by reflexivity.
  rewrite Hr in Hclaim. discriminate Hclaim; [apply surjective_pairing | reflexivity | discriminate].
Qed.

(** C4, amended.  [load_ingestion_log] issues one download of the ledger
    object.  When the object is not in the bucket (and the call is not made
    to fail otherwise) it returns the empty mapping.  It returns the empty
    mapping as well for every other failure that is an error response of S3
    (a [ClientError], such as a denied access).  A failure of another kind
    (a connection failure, content that is not JSON) is surfaced to the
    caller.  A ledger that is fetched and decoded is returned as it is. *)
Theorem load_ingestion_log_spec (s s' : State) (r : exn + gmap string string) :
  Ingestion.load_ingestion_log s = (s', r) →
  ∃ raised,
    calls s' = (calls s ++ [(s3_download_file bucket_name log_key, raised)])%list ∧
    bucket s' = bucket s ∧
    match raised with
    | Some e =>
        r = (if is_ClientError e then inr ∅ else inl e) ∧
        (head (faults s) = Some (Some e)
         ∨ S3.find log_key (bucket s) = None ∧ e = not_found)
    | None =>
        ∃ o, S3.find log_key (bucket s) = Some o ∧
             match Body o with
             | JsonDict d => r = inr d
             | Raw _ => ∃ msg, r = inl (JSONDecodeError msg)
             end
    end.
Proof.
  intros H. unfold Ingestion.load_ingestion_log in H.
  inv_run.
  all: try discriminate.
  all: eexists; split; [reflexivity|]; split; [done|]; cbv beta iota.
  all: try match goal with H : is_ClientError _ = _ |- _ => rewrite H end.
  all: try (split; [done|];
            match goal with H : _ ∨ _ |- _ => destruct H as [H|H]; [by left|right] end;
            destruct (S3.find log_key (bucket s)); [discriminate H|];
            apply inl_eq_inv in H; by subst).
  all: eexists; split; [done|].
  all: match goal with H : Body _ = _ |- _ => rewrite H end; eauto.
Qed.

Lemma load_ingestion_log_spec_witness :
  ∃ raised,
    calls (Ingestion.load_ingestion_log state_denied).1
    = [(s3_download_file bucket_name log_key, raised)] ∧
    bucket (Ingestion.load_ingestion_log state_denied).1 = bucket state_denied ∧
    match raised with
    | Some e =>
        (Ingestion.load_ingestion_log state_denied).2
        = (if is_ClientError e then inr ∅ else inl e) ∧
        (head (faults state_denied) = Some (Some e)
         ∨ S3.find log_key (bucket state_denied) = None ∧ e = not_found)
    | None =>
        ∃ o, S3.find log_key (bucket state_denied) = Some o ∧
             match Body o with
             | JsonDict d => (Ingestion.load_ingestion_log state_denied).2 = inr d
             | Raw _ => ∃ msg, (Ingestion.load_ingestion_log state_denied).2
                               = inl (JSONDecodeError msg)
             end
    end.
Proof.
  apply (load_ingestion_log_spec state_denied).
  apply surjective_pairing.
Defined.

(** ** Document extraction *)

Lemma metadata_content_Some result content s :
  content_of result = Some content →
  Assistant.metadata_content result s = (s, inr content).
Proof.
  unfold content_of, Assistant.metadata_content. destruct (metadata result) as [md|]; [|done].
  cbn. by intros ->.
Qed.

Lemma metadata_content_None result s :
  has_metadata result = true →
  content_of result = None →
  Assistant.metadata_content result s = (s, inl (KeyError "content")).
Proof.
  unfold has_metadata, content_of, Assistant.metadata_content.
  destruct (metadata result) as [md|]; [|done].
  cbn. by intros _ ->.
Qed.

Lemma metadata_content_TypeError result s :
  has_metadata result = false →
  Assistant.metadata_content result s = (s, inl no_metadata).
Proof.
  unfold has_metadata, Assistant.metadata_content. by destruct (metadata result).
Qed.

(** The loop over matches that all carry a metadata. *)
Lemma collect_documents_spec results documents s :
  Forall (λ result, has_metadata result = true) results →
  Assistant.collect_documents results documents s
  = (foldl (λ s result, match complaint result with
                         | Some w => show w s
                         | None => s
                         end) s results,
     inr (documents ++ omap content_of results)%list).
Proof.
  intros Hall. revert documents s.
  induction Hall as [|result results Hmd _ IH]; intros documents s.
  - cbn. by rewrite app_nil_r.
  - cbn [Assistant.collect_documents foldl omap]. unfold bind at 1.
    unfold try_except_only, bind at 1.
    destruct (content_of result) as [content|] eqn:Hc.
    + assert (complaint result = None) as -> by (unfold complaint; by rewrite Hc).
      rewrite (metadata_content_Some _ _ _ Hc). cbn. rewrite IH, Hc. by rewrite <- app_assoc.
    + assert (complaint result = Some (missing_content result)) as ->
        by (unfold complaint; by rewrite Hc).
      rewrite (metadata_content_None result s Hmd Hc). cbn. by rewrite IH, Hc.
Qed.

(** The loop ends at the first match without metadata: the [TypeError]
    leaves it, and the documents collected so far are lost with it. *)
Lemma collect_documents_raises before bad after documents s :
  Forall (λ result, has_metadata result = true) before →
  has_metadata bad = false →
  Assistant.collect_documents (before ++ bad :: after) documents s
  = (foldl (λ s result, match complaint result with
                         | Some w => show w s
                         | None => s
                         end) s before,
     inl no_metadata).
Proof.
  intros Hall Hbad. revert documents s.
  induction Hall as [|result results Hmd _ IH]; intros documents s.
  - cbn [app Assistant.collect_documents foldl]. unfold bind at 1.
    unfold try_except_only, bind at 1.
    by rewrite (metadata_content_TypeError bad s Hbad).
  - cbn [app Assistant.collect_documents foldl]. unfold bind at 1.
    unfold try_except_only, bind at 1.
    destruct (content_of result) as [content|] eqn:Hc.
    + assert (complaint result = None) as -> by (unfold complaint; by rewrite Hc).
      rewrite (metadata_content_Some _ _ _ Hc). cbn. by rewrite IH.
    + assert (complaint result = Some (missing_content result)) as ->
        by (unfold complaint; by rewrite Hc).
      rewrite (metadata_content_None result s Hmd Hc). cbn. by rewrite IH.
Qed.

Lemma length_omap_le {A B} (f : A → option B) (l : list A) : (length (omap f l) ≤ length l)%nat.
Proof. induction l as [|x l IH]; cbn; [done|]. destruct (f x); cbn; lia. Qed.

Lemma foldl_show_calls (f : Match → option widget) results s :
  let s' := foldl (λ s result, match f result with Some w => show w s | None => s end) s results in
  calls s' = calls s ∧ bucket s' = bucket s ∧ indexes s' = indexes s ∧
  screen s' = (screen s ++ omap f results)%list.
Proof.
  revert s. induction results as [|result results IH]; intros s; cbn.
  - by rewrite app_nil_r.
  - destruct (IH (match f result with Some w => show w s | None => s end)) as (-> & -> & -> & ->).
    destruct (f result); cbn; [|done]. by rewrite <- app_assoc.
Qed.

Lemma foldl_show_frame (f : Match → option widget) results s :
  let s' := foldl (λ s result, match f result with Some w => show w s | None => s end) s results in
  calls s' = calls s ∧ bucket s' = bucket s ∧ indexes s' = indexes s ∧
  history s' = history s ∧ ingestion_log s' = ingestion_log s ∧ clock s' = clock s ∧
  completion s' = completion s ∧ environ s' = environ s ∧ pressed s' = pressed s.
Proof.
  revert s. induction results as [|result results IH]; intros s; cbn; [done|].
  destruct (IH (match f result with Some w => show w s | None => s end))
    as (-> & -> & -> & -> & -> & -> & -> & -> & ->).
  by destruct (f result).
Qed.

(** A list of matches either all carry a metadata or splits at the first
    one that carries none. *)
Lemma first_without_metadata (results : list Match) :
  Forall (λ result, has_metadata result = true) results
  ∨ ∃ before bad after,
      results = (before ++ bad :: after)%list ∧
      Forall (λ result, has_metadata result = true) before ∧
      has_metadata bad = false.
Proof.
  induction results as [|result results [IH|(before & bad & after & -> & Hall & Hbad)]].
  - by left.
  - destruct (has_metadata result) eqn:Hmd.
    + left. by constructor.
    + right. by exists [], result, results.
  - destruct (has_metadata result) eqn:Hmd.
    + right. exists (result :: before), bad, after.
      split; [done|]. split; [by constructor|done].
    + right. by exists [], result, (before ++ bad :: after)%list.
Qed.

(** What [retrieve_documents] of [GCP_GPT_Assistant.py] does with matches
    that all carry a metadata: it keeps, in the order returned, the
    contents of the first [max_docs] matches that have one, shows an error
    for each of the others, issues no call and does not raise. *)
Lemma retrieve_documents_spec (results : list Match) (max_docs : nat) (s : State) :
  Forall (λ result, has_metadata result = true) (take max_docs results) →
  ∃ s', Assistant.retrieve_documents (Some {| matches := Some results |}) max_docs s
        = (s', inr (omap content_of (take max_docs results))) ∧
        (length (omap content_of (take max_docs results)) ≤ max_docs)%nat ∧
        calls s' = calls s ∧ bucket s' = bucket s ∧
        screen s' = (screen s ++
                       omap complaint (take max_docs results))%list.
Proof.
  intros Hall.
  cbn [Assistant.retrieve_documents matches].
  rewrite collect_documents_spec by done. eexists. split; [reflexivity|].
  split.
  - etrans; [apply length_omap_le|]. rewrite length_take. lia.
  - pose proof (foldl_show_calls complaint (take max_docs results) s) as H.
    cbv zeta in H. tauto.
Qed.

(** Whatever the matches, [retrieve_documents] issues no call and changes
    nothing but the screen; it returns at most [max_docs] documents or
    raises the [TypeError] of a match without metadata. *)
Lemma retrieve_documents_frame query_result max_docs s s' r :
  Assistant.retrieve_documents query_result max_docs s = (s', r) →
  (calls s' = calls s ∧ bucket s' = bucket s ∧ indexes s' = indexes s ∧
   history s' = history s ∧ completion s' = completion s ∧ environ s' = environ s) ∧
  (r = inl no_metadata
   ∨ ∃ documents, r = inr documents ∧ (length documents ≤ max_docs)%nat).
Proof.
  destruct query_result as [[[results|]]|]; cbn [Assistant.retrieve_documents matches].
  2,3: intros [= <- <-]; split; [done|]; right; eexists; split; [done|cbn; lia].
  destruct (first_without_metadata (take max_docs results))
    as [Hall|(before & bad & after & Heq & Hall & Hbad)].
  - rewrite collect_documents_spec by done. intros [= <- <-].
    destruct (foldl_show_frame complaint (take max_docs results) s)
      as (-> & -> & -> & -> & _ & _ & -> & -> & _).
    split; [done|]. right. eexists. split; [done|].
    cbn [app]. etrans; [apply length_omap_le|]. rewrite length_take. lia.
  - rewrite Heq, (collect_documents_raises before bad after) by done. intros [= <- <-].
    destruct (foldl_show_frame complaint before s) as (-> & -> & -> & -> & _ & _ & -> & -> & _).
    split; [done|]. by left.
Qed.

Lemma retrieve_documents_calls query_result max_docs s s' r :
  Assistant.retrieve_documents query_result max_docs s = (s', r) → calls s' = calls s.
Proof. by intros [(? & _) _]%retrieve_documents_frame. Qed.

Lemma comprehension_calls results s s' r :
  comprehension App.metadata_content results s = (s', r) → s' = s.
Proof.
  revert s s' r. induction results as [|result results IH]; intros s s' r H; cbn in H.
  - by inv_run.
  - unfold App.metadata_content in H at 1.
    destruct (metadata result) as [md|]; [destruct (md !! "content")|]; inv_run;
      try done; by eapply IH.
Qed.

(** ** The query engine *)

Lemma completion_calls_log c o s :
  completion_calls (log_call c o s)
  = (completion_calls s + if is_completion (c, o) then 1 else 0)%nat.
Proof.
  unfold completion_calls. cbn [calls log_call]. rewrite List.filter_app, length_app.
  cbn [List.filter]. by destruct (is_completion (c, o)).
Qed.

Lemma completion_calls_next s : completion_calls (next s) = completion_calls s.
Proof. reflexivity. Qed.

Lemma completion_calls_show w s : completion_calls (show w s) = completion_calls s.
Proof. reflexivity. Qed.

Ltac count_completions :=
  repeat (rewrite completion_calls_log || rewrite completion_calls_next
          || rewrite completion_calls_show);
  cbn [is_completion fst]; lia.

(** C5.  In both implementations of [query], when the search returns a
    result and the extraction of documents from it yields the empty list,
    the query ends with the "nothing found" outcome (the warning and a
    null report in [GCP_GPT_Assistant.py], the text [No relevant data
    found.] in [app.py]) and the log holds no more calls to the completion
    service than before the query. *)
Theorem empty_extraction_never_calls_completion :
  (∀ self q s s1 s2 query_result,
     Assistant.search_index self q 6 s = (s1, inr (Some query_result)) →
     Assistant.retrieve_documents (Some query_result) 3 s1 = (s2, inr []) →
     ∃ s', Assistant.query self q s = (s', inr (None, [])) ∧
           last (screen s') = Some (StWarning "No relevant documents found.") ∧
           completion_calls s' = completion_calls s) ∧
  (∀ self q s s1 s2 results,
     App.search_index self q 6 s = (s1, inr results) →
     App.retrieve_documents results 3 s1 = (s2, inr []) →
     ∃ s', App.query self q s = (s', inr "No relevant data found.") ∧
           completion_calls s' = completion_calls s).
Proof.
  split.
  - intros self q s s1 s2 query_result Hsearch Hdocs.
    unfold Assistant.query, bind at 1. rewrite Hsearch.
    unfold bind at 1. rewrite Hdocs. unfold bind, st_warning, modify, ret.
    eexists. split; [reflexivity|]. split; [apply last_snoc|].
    apply retrieve_documents_calls in Hdocs.
    unfold completion_calls at 1. cbn [calls show]. rewrite Hdocs.
    fold (completion_calls s1).
    unfold Assistant.search_index, Assistant.generate_embedding in Hsearch.
    inv_run; try discriminate.
    all: count_completions.
  - intros self q s s1 s2 results Hsearch Hdocs.
    unfold App.query, bind at 1. rewrite Hsearch.
    unfold bind at 1. rewrite Hdocs. unfold ret.
    eexists. split; [reflexivity|].
    apply comprehension_calls in Hdocs as ->.
    unfold App.search_index, App.generate_embedding in Hsearch.
    inv_run.
    all: count_completions.
Qed.

Lemma empty_extraction_never_calls_completion_witness :
  ∃ s', Assistant.query assistant1 "How many buckets?" (state_answering [])
        = (s', inr (None, [])) ∧
        last (screen s') = Some (StWarning "No relevant documents found.") ∧
        completion_calls s' = completion_calls (state_answering []).
Proof.
  eapply (proj1 empty_extraction_never_calls_completion); reflexivity.
Defined.

(** C7, on [app.py].  On three matches of which the second has no
    [content], [retrieve_documents] of [app.py] raises [KeyError] and the
    whole query fails with it, where [retrieve_documents] of
    [GCP_GPT_Assistant.py] shows an error for the second match and returns
    the two documents in order. *)
Theorem app_retrieve_documents_raises (s : State) :
  App.retrieve_documents {| matches := Some matches3 |} 3 s = (s, inl (KeyError "content")) ∧
  Assistant.retrieve_documents (Some {| matches := Some matches3 |}) 3 s
  = (show (StError "Document ID 'b' not found in metadata.") s, inr ["doc a"; "doc c"]) ∧
  (App.query assistant2 "How many buckets?" (state_answering matches3)).2
  = inl (KeyError "content") ∧
  (Assistant.query assistant1 "How many buckets?" (state_answering matches3)).2
  = inr (Some ("Two buckets." ++ Str.nl ++ "Reference: doc a"), ["Reference: doc a"]).
Proof. repeat split; by vm_compute. Qed.

(** ** The index the QnA flow selects *)

Lemma ltb_false_leb a b : String.ltb b a = false ↔ String.leb a b = true.
Proof.
  unfold String.ltb, String.leb. rewrite (String.compare_antisym a b).
  destruct (String.compare b a); cbn; split; congruence.
Qed.

Lemma String_ltb_trans_neg a b c :
  String.ltb b a = false → String.ltb c b = false → String.ltb c a = false.
Proof.
  rewrite !ltb_false_leb. intros Hab Hbc.
  apply Is_true_true. apply Is_true_true in Hab, Hbc.
  exact (transitivity (R := String.le) Hab Hbc).
Qed.

Lemma String_ltb_asym a b : String.ltb a b = true → String.ltb b a = false.
Proof.
  unfold String.ltb. rewrite (String.compare_antisym a b).
  by destruct (String.compare b a).
Qed.

Lemma sorted_keys_head (d : gmap string string) k rest :
  Py.sorted_reverse (λ k : string, k) String.ltb (map_to_list d).*1 = k :: rest →
  greatest_key d k.
Proof.
  intros Hs. split.
  - assert (k ∈ (map_to_list d).*1) as Hin.
    { rewrite <- (sorted_reverse_perm (λ k : string, k) String.ltb), Hs. left. }
    apply list_elem_of_fmap in Hin as [[k' v] [-> Hin]].
    apply elem_of_map_to_list in Hin. by exists v.
  - intros k' [v Hv]. apply ltb_false_leb.
    apply (head_sorted_reverse_max (λ k : string, k) String.ltb
             String_ltb_trans_neg String_ltb_asym (map_to_list d).*1).
    + by rewrite Hs.
    + apply list_elem_of_fmap. exists (k', v). split; [done|]. by apply elem_of_map_to_list.
Qed.

Lemma sorted_keys_nil (d : gmap string string) :
  Py.sorted_reverse (λ k : string, k) String.ltb (map_to_list d).*1 = [] → d = ∅.
Proof.
  intros Hs%sorted_reverse_nil_iff. apply fmap_nil_inv in Hs. by apply map_to_list_empty_iff.
Qed.

(** C9.  [get_latest_index_from_s3_log] issues one download of the ledger
    object.  When the ledger is fetched, decoded and not empty, the result
    is the index name recorded under its greatest key in string order; it
    does not depend on any modification time.  When the download fails,
    the content is not JSON or the ledger is empty, the result is [None].
    With [None] both QnA scripts stop where they are: no further call is
    issued.  After the ingestion of an older snapshot and then of a newer
    one whose name is smaller in string order, the QnA flow selects the
    index of the older one. *)
Theorem latest_index_is_greatest_key :
  (∀ s s' r,
     Assistant.get_latest_index_from_s3_log s = (s', r) →
     ∃ raised,
       calls s' = (calls s ++ [(s3_download_file bucket_name log_key, raised)])%list ∧
       match raised with
       | Some e => r = inr None
       | None =>
           ∃ o, S3.find log_key (bucket s) = Some o ∧
                match Body o with
                | JsonDict d =>
                    if decide (d = ∅) then r = inr None
                    else ∃ k index_name,
                           greatest_key d k ∧ d !! k = Some index_name ∧
                           r = inr (Some index_name)
                | Raw _ => r = inr None
                end
       end) ∧
  (∀ s user_question submit,
     (Assistant.get_latest_index_from_s3_log s).2 = inr None →
     Assistant.main user_question submit s
     = ((Assistant.get_latest_index_from_s3_log s).1, inr tt) ∧
     App.qna_page user_question submit s
     = ((Assistant.get_latest_index_from_s3_log s).1, inr tt)) ∧
  (Ingestion.latest_file [older; newer] = Some newer ∧
   ingestion_log state_after_two_runs !! Str.basename (Key newer) = Some "index-newer" ∧
   (Assistant.get_latest_index_from_s3_log state_after_two_runs).2 = inr (Some "index-older")).
Proof.
  split; [|split].
  - intros s s' r H. unfold Assistant.get_latest_index_from_s3_log in H.
    inv_run.
    all: try discriminate.
    all: eexists; split; [reflexivity|]; cbv beta iota; try done.
    all: eexists; split; [done|].
    all: match goal with H : Body _ = _ |- _ => rewrite H end; try done.
    all: match goal with H : decide _ = _ |- _ => rewrite H end; try done.
    + by apply sorted_keys_nil in Heql.
    + apply sorted_keys_head in Heql as [[v Hv] _]. congruence.
    + apply sorted_keys_head in Heql. eauto.
  - intros s user_question submit Hnone.
    unfold Assistant.main, App.qna_page, App.get_latest_index_from_s3_log, bind.
    destruct (Assistant.get_latest_index_from_s3_log s) as [s' r]. cbn in Hnone. by subst.
  - repeat split; by vm_compute.
Qed.

Lemma latest_index_is_greatest_key_witness :
  ∃ raised,
    calls (Assistant.get_latest_index_from_s3_log state_after_two_runs).1
    = (calls state_after_two_runs ++ [(s3_download_file bucket_name log_key, raised)])%list.
Proof.
  destruct (proj1 latest_index_is_greatest_key state_after_two_runs _ _
              (surjective_pairing _)) as [raised [H _]].
  by exists raised.
Defined.

(** ** Index bootstrap *)

Lemma create_calls_log c o s :
  create_calls (log_call c o s) = (create_calls s + if is_create (c, o) then 1 else 0)%nat.
Proof.
  unfold create_calls. cbn [calls log_call]. rewrite List.filter_app, length_app.
  cbn [List.filter]. by destruct (is_create (c, o)).
Qed.

Lemma create_calls_next s : create_calls (next s) = create_calls s.
Proof. reflexivity. Qed.

Lemma create_calls_show w s : create_calls (show w s) = create_calls s.
Proof. reflexivity. Qed.

Lemma create_calls_set_clock t s : create_calls (set_clock t s) = create_calls s.
Proof. reflexivity. Qed.

Lemma create_calls_set_indexes i s : create_calls (set_indexes i s) = create_calls s.
Proof. reflexivity. Qed.

Ltac count_creates :=
  repeat (rewrite create_calls_log || rewrite create_calls_next || rewrite create_calls_show
          || rewrite create_calls_set_clock || rewrite create_calls_set_indexes);
  cbn [is_create fst length]; try lia.

(** [create_index_with_retry] never raises; it issues at most one create
    call for each attempt; when it returns [True] the index exists; when
    it returns [False] the error is on the screen. *)
Lemma create_index_attempts_spec name dim metric retries delay attempts s s' r :
  Assistant.create_index_attempts name dim metric retries delay attempts s = (s', r) →
  ∃ returned,
    r = inr returned ∧
    (create_calls s' ≤ create_calls s + length attempts)%nat ∧
    (returned = Some true → name ∈ indexes s') ∧
    (returned = Some false →
     ∃ e, last (screen s')
          = Some (StError ("Failed to create index after " ++ pretty retries
                             ++ " attempts: " ++ str e))).
Proof.
  revert s s' r. induction attempts as [|attempt rest IH]; intros s s' r H.
  - cbn in H. inv_run. exists None. repeat split; [lia | done | done].
  - cbn [Assistant.create_index_attempts] in H. inv_run.
    all: try match goal with
             | H : Assistant.create_index_attempts _ _ _ _ _ _ _ = _ |- _ =>
                 apply IH in H as (returned & -> & Hn & Ht & Hf);
                 exists returned; split; [done|]; split; [|done];
                 revert Hn; count_creates
             end.
    all: eexists; split; [reflexivity|]; split; [count_creates|].
    all: split; intros Hret; try discriminate Hret.
    all: try (eexists; apply last_snoc).
    all: try done.
    all: try (apply elem_of_app; right; left).
Qed.

Lemma remote_quiet {A} c (serve : State → exn + State * A) n s :
  quiet (S n) s →
  remote c serve s
  = match serve (next s) with
    | inl e => (log_call c (Some e) (next s), inl e)
    | inr (s1, a) => (log_call c None s1, inr a)
    end.
Proof.
  intros Hq. unfold remote.
  destruct (faults s) as [|[e|] fs] eqn:Hf; cbn [head]; try done.
  destruct (Hq 0%nat e); [lia | by rewrite Hf].
Qed.

Lemma quiet_next n s : quiet (S n) s → quiet n (next s).
Proof.
  intros Hq i e Hi. cbn [next faults set_faults].
  specialize (Hq (S i) e). destruct (faults s); [done|]. apply Hq. lia.
Qed.

(** X11.  For a name that Pinecone lists, and a listing that is answered,
    [create_index_with_retry] issues the one listing and no create call,
    and returns [True]. *)
Lemma create_index_present name dim metric retries delay s :
  name ∈ indexes s → quiet 1 s →
  Assistant.create_index_with_retry name dim metric (S retries) delay s
  = (log_call pc_list_indexes None (next s), inr (Some true)).
Proof.
  intros Hin Hq. unfold Assistant.create_index_with_retry.
  cbn [seq Assistant.create_index_attempts].
  unfold bind at 1, try_except, bind at 1, Pinecone.list_indexes_names.
  rewrite (remote_quiet _ _ 0 s Hq). cbn [indexes next set_faults log_call].
  unfold bind. by case_decide.
Qed.

(** X12.  For a name that Pinecone does not list, and a service that
    answers, [create_index_with_retry] issues one listing and exactly one
    create call, after which the index exists, and returns [True]. *)
Lemma create_index_absent name dim metric retries delay s :
  name ∉ indexes s → quiet 2 s →
  ∃ s', Assistant.create_index_with_retry name dim metric (S retries) delay s
        = (s', inr (Some true)) ∧
        calls s' = (calls s ++ [(pc_list_indexes, None);
                                (pc_create_index name dim metric, None)])%list ∧
        indexes s' = (indexes s ++ [name])%list.
Proof.
  intros Hin Hq. unfold Assistant.create_index_with_retry.
  cbn [seq Assistant.create_index_attempts].
  unfold bind at 1, try_except, bind at 1, Pinecone.list_indexes_names.
  rewrite (remote_quiet _ _ 1 s Hq). cbn [indexes next set_faults log_call].
  unfold bind at 1. case_decide; [done|].
  unfold Pinecone.create_index.
  rewrite (remote_quiet _ _ 0).
  - cbn [indexes next set_faults log_call]. case_decide; [done|].
    unfold bind, ret. eexists. split; [reflexivity|].
    cbn [calls indexes log_call set_indexes set_faults next]. by rewrite <- (app_assoc (calls s)).
  - apply quiet_next in Hq. exact Hq.
Qed.

(** C8, on [GCP_GPT_Assistant.py].  The ledger names an index that
    Pinecone does not have and every attempt to create it fails.
    [create_index_with_retry] makes its three attempts, shows the error and
    returns [False]; the script goes on all the same: it opens the index,
    embeds the question and queries the index that does not exist. *)
Theorem bootstrap_failure_does_not_stop_the_script :
  let s1 := (Assistant.get_latest_index_from_s3_log state_create_fails).1 in
  let s' := (Assistant.main "How many buckets?" true state_create_fails).1 in
  (Assistant.create_index_with_retry "inventory-march" Assistant.dimension
     Assistant.metric 3 5 s1).2 = inr (Some false) ∧
  indexes s' = [] ∧
  calls s'
  = [(s3_download_file bucket_name log_key, None);
     (pc_list_indexes, None);
     (pc_create_index "inventory-march" 1536 "euclidean", Some timeout);
     (time_sleep 5, None);
     (pc_list_indexes, None);
     (pc_create_index "inventory-march" 1536 "euclidean", Some timeout);
     (time_sleep 5, None);
     (pc_list_indexes, None);
     (pc_create_index "inventory-march" 1536 "euclidean", Some timeout);
     (pc_Index "inventory-march", None);
     (embeddings_create "How many buckets?" "text-embedding-3-small", None);
     (index_query "inventory-march" [1; 2; 3] 6, Some (ServiceError "NOT_FOUND"))] ∧
  screen s'
  = [StError "Failed to create index after 3 attempts: Request timed out";
     StSidebarSuccess "✅ Using Pinecone Index: `inventory-march`";
     StError "Error querying index: NOT_FOUND";
     StWrite "No response generated."].
Proof. repeat split; by vm_compute. Qed.

(** * Further properties of the scripts *)

(** ** Saving and loading the ledger *)

Lemma find_elem_of o objs : o ∈ objs → is_Some (S3.find (Key o) objs).
Proof.
  induction 1 as [o objs|o o' objs Hin IH]; rewrite find_cons.
  - by rewrite String.eqb_refl.
  - destruct (String.eqb (Key o') (Key o)); eauto.
Qed.

Lemma find_remove_eq key objs : S3.find key (S3.remove key objs) = None.
Proof.
  unfold S3.remove. induction objs as [|o objs IH]; [done|].
  rewrite filter_cons. case_decide as Hk; [|done].
  rewrite find_cons. by destruct (String.eqb_spec (Key o) key).
Qed.

(** X1.  A ledger that [save_ingestion_log] has written is the ledger that
    [load_ingestion_log] reads back, when S3 answers both calls; the save
    replaces the ledger object and touches no other object. *)
Theorem save_then_load (log_data : gmap string string) (s : State) :
  quiet 2 s →
  ∃ s1 s2,
    Ingestion.save_ingestion_log log_data s = (s1, inr tt) ∧
    Ingestion.load_ingestion_log s1 = (s2, inr log_data) ∧
    bucket s2 = bucket s1 ∧
    (∀ key, key ≠ log_key → S3.find key (bucket s1) = S3.find key (bucket s)).
Proof.
  intros Hq.
  unfold Ingestion.save_ingestion_log, S3.upload_file.
  rewrite (remote_quiet _ _ 1 s Hq).
  eexists _, _. split; [reflexivity|].
  unfold Ingestion.load_ingestion_log, try_except_only, bind, S3.download_file.
  rewrite (remote_quiet _ _ 0); [|exact (quiet_next 1 s Hq)].
  st_simpl. rewrite find_cons. cbn [Key Body]. rewrite String.eqb_refl.
  cbn [json_load ret]. split; [done|]. split; [done|].
  intros key Hne. rewrite find_cons. cbn [Key].
  destruct (String.eqb_spec log_key key) as [Heq|_]; [by destruct Hne|].
  by apply find_remove_ne.
Qed.

Lemma save_then_load_witness :
  ∃ s1 s2,
    Ingestion.save_ingestion_log ledger1 state0 = (s1, inr tt) ∧
    Ingestion.load_ingestion_log s1 = (s2, inr ledger1) ∧
    bucket s2 = bucket s1 ∧
    (∀ key, key ≠ log_key → S3.find key (bucket s1) = S3.find key (bucket state0)).
Proof.
  apply (save_then_load ledger1 state0).
  intros i e Hi. by destruct i.
Defined.

(** ** What a run of the orchestrator does *)

(** Case analysis of a membership in an explicit list of logged calls. *)
(** X2.  With a snapshot selected that the ledger does not hold, an index
    name entered, the button pressed and every service answering, a run of
    the orchestrator issues exactly the listing, the download, the two
    loader calls, the save of the ledger and the delete, in this order.
    The ledger gains the one record, the ledger object in the bucket holds
    the ledger as the script holds it, the snapshot is gone from the bucket
    and every other object is as it was. *)
Theorem successful_ingestion
    (file : script) (inp : Inputs) (s : State) (latest : S3Object) :
  quiet 6 s →
  Ingestion.latest_file (listing s) = Some latest →
  ingestion_log s !! Str.basename (Key latest) = None →
  Str.truthy (index_name_input inp) = true →
  start_ingestion inp = true →
  ∃ s',
    Ingestion.orchestrator file inp s = (s', inr tt) ∧
    ingestion_log s'
    = <[Str.basename (Key latest) := index_name_input inp]> (ingestion_log s) ∧
    calls s'
    = (calls s ++
         [(s3_list_objects_v2 bucket_name prefix, None);
          (s3_download_file bucket_name (Key latest), None);
          (LangchainPineconeLoader bucket_name prefix (index_name_input inp), None);
          (load_and_index bucket_name prefix (index_name_input inp), None);
          (s3_upload_file bucket_name log_key (JsonDict (ingestion_log s')), None);
          (s3_delete_object bucket_name (Key latest), None)])%list ∧
    (∃ o, S3.find log_key (bucket s') = Some o ∧ Body o = JsonDict (ingestion_log s')) ∧
    S3.find (Key latest) (bucket s') = None ∧
    (∀ key, key ≠ log_key → key ≠ Key latest →
            S3.find key (bucket s') = S3.find key (bucket s)).
Proof.
  intros Hq Hlatest Hnew Hname Hclick.
  assert (latest ∈ bucket s ∧ Key latest ≠ log_key) as [Hin Hkey].
  { pose proof (latest_file_elem_of _ _ Hlatest) as Hj. split.
    - apply elem_of_json_files in Hj as [_ Hj]. by apply list_elem_of_filter in Hj as [_ Hj].
    - apply elem_of_json_files in Hj as [Hj _]. by apply log_key_not_snapshot. }
  destruct (find_elem_of _ _ Hin) as [found Hfound].
  destruct (Ingestion.orchestrator file inp s) as [s' r] eqn:H. exists s'.
  unfold_orchestrator H. unfold Ingestion.latest_file, listing in Hlatest.
  rewrite Hname, Hclick in H. cbn [andb] in H.
  inv_run.
  all: try match goal with H : _ ∨ _ |- _ => destruct H as [H|H]; try discriminate H end.
  all: try quiet_contra Hq.
  all: rewrite Heql in Hlatest; try discriminate Hlatest.
  all: cbn [head] in Hlatest; apply (inj Some) in Hlatest; subst.
  all: try congruence.
  all: try (rewrite Hfound in *; discriminate).
  all: split; [done|]; split; [done|]; split; [by rewrite <- !app_assoc|].
  all: split; [eexists; split; [rewrite find_remove_ne by done; reflexivity|done]|].
  all: split; [apply find_remove_eq|].
  all: intros key Hk1 Hk2; rewrite find_remove_ne by done; rewrite find_cons; cbn [Key].
  all: destruct (String.eqb_spec log_key key) as [Heq|_]; [by destruct Hk1|].
  all: by apply find_remove_ne.
Qed.

Lemma successful_ingestion_witness :
  ∃ s',
    Ingestion.orchestrator app_py inputs1 (set_bucket bucket1 state0) = (s', inr tt) ∧
    ingestion_log s' = {[ "gcp_inventory_20240301-000000.json" := "inventory-march" ]} ∧
    S3.find "copilot/gcp_inventory_20240301-000000.json" (bucket s') = None.
Proof.
  destruct (successful_ingestion app_py inputs1 (set_bucket bucket1 state0)
              (snapshot "copilot/gcp_inventory_20240301-000000.json" 9))
    as (s' & Hrun & Hlog & _ & _ & Hgone & _).
  - intros i e Hi. by destruct i.
  - by vm_compute.
  - by vm_compute.
  - reflexivity.
  - reflexivity.
  - exists s'. split; [done|]. split; [|done]. rewrite Hlog. apply insert_empty.
Defined.

(** X3.  A run of the orchestrator never ends in an exception, whatever
    the services do, and issues at most six calls.  It writes to the bucket
    only after [load_and_index] has returned, and it deletes a snapshot
    only after the save of the ledger has returned. *)
Theorem orchestrator_is_guarded
    (file : script) (inp : Inputs) (s s' : State) (r : exn + unit)
    (new : list (call * option exn)) :
  Ingestion.orchestrator file inp s = (s', r) →
  calls s' = (calls s ++ new)%list →
  r = inr tt ∧
  (length new ≤ 6)%nat ∧
  (∀ c o, (c, o) ∈ new → is_write c = true →
          ∃ b d i, (load_and_index b d i, None) ∈ new) ∧
  (∀ Bucket key o, (s3_delete_object Bucket key, o) ∈ new →
                   ∃ data, (s3_upload_file bucket_name log_key data, None) ∈ new).
Proof.
  intros H Hc. unfold_orchestrator H.
  inv_run.
  all: new_calls Hc.
  all: split; [done|]; split; [cbn; lia|].
  all: split; [intros c o Hin Hw | intros Bucket key o Hin]; call_cases Hin;
         try discriminate Hw.
  all: eexists; try (eexists _, _); rewrite !elem_of_cons; eauto 10.
Qed.

Lemma orchestrator_is_guarded_witness :
  (Ingestion.orchestrator app_py inputs1 state_load_fails).2 = inr tt.
Proof.
  eapply (proj1 (orchestrator_is_guarded app_py inputs1 state_load_fails _ _
                   [(s3_list_objects_v2 bucket_name prefix, None);
                    (s3_download_file bucket_name
                       "copilot/gcp_inventory_20240301-000000.json", None);
                    (LangchainPineconeLoader bucket_name prefix "inventory-march", None);
                    (load_and_index bucket_name prefix "inventory-march",
                     Some (ServiceError "upsert failed"))]
                   (surjective_pairing _) _)).
  Unshelve. by vm_compute.
Defined.

(** X4.  When the listing of the bucket fails, the run shows the failure
    and then behaves as for a bucket without snapshots: it shows the
    no-snapshot warning, issues no other call and changes nothing. *)
Theorem failed_listing_is_an_empty_listing
    (file : script) (inp : Inputs) (s s' : State) (r : exn + unit)
    (new : list (call * option exn)) (e : exn) :
  Ingestion.orchestrator file inp s = (s', r) →
  calls s' = (calls s ++ new)%list →
  (s3_list_objects_v2 bucket_name prefix, Some e) ∈ new →
  r = inr tt ∧
  new = [(s3_list_objects_v2 bucket_name prefix, Some e)] ∧
  screen s' = (screen s ++ [StError ("❌ Failed to list S3 objects: " ++ str e);
                            StWarning (Ingestion.msg_none file)])%list ∧
  bucket s' = bucket s ∧ ingestion_log s' = ingestion_log s.
Proof.
  intros H Hc Hin. unfold_orchestrator H.
  inv_run.
  all: new_calls Hc.
  all: call_cases Hin.
  by rewrite <- app_assoc.
Qed.

Lemma failed_listing_is_an_empty_listing_witness :
  screen (Ingestion.orchestrator app_py inputs1 state_listing_fails).1
  = [StError "❌ Failed to list S3 objects: Could not connect to the endpoint URL";
     StWarning "Ingest JSON Inventory into Pinecone."].
Proof.
  destruct (failed_listing_is_an_empty_listing app_py inputs1 state_listing_fails _ _
              [(s3_list_objects_v2 bucket_name prefix,
                Some (ServiceError "Could not connect to the endpoint URL"))]
              (ServiceError "Could not connect to the endpoint URL")
              (surjective_pairing _)) as (_ & _ & Hscreen & _).
  - by vm_compute.
  - left.
  - exact Hscreen.
Defined.

(** X5.  Without an index name, or without the button pressed, a run does
    nothing but list the bucket: nothing is downloaded, loaded, saved or
    deleted, and the ledger is as it was. *)
Theorem no_ingestion_without_request
    (file : script) (inp : Inputs) (s s' : State) (r : exn + unit)
    (new : list (call * option exn)) :
  Str.truthy (index_name_input inp) && start_ingestion inp = false →
  Ingestion.orchestrator file inp s = (s', r) →
  calls s' = (calls s ++ new)%list →
  r = inr tt ∧ bucket s' = bucket s ∧ ingestion_log s' = ingestion_log s ∧
  ∃ raised, new = [(s3_list_objects_v2 bucket_name prefix, raised)].
Proof.
  intros Hreq H Hc. unfold_orchestrator H. rewrite Hreq in H.
  inv_run.
  all: new_calls Hc.
  all: by eauto 10.
Qed.

Lemma no_ingestion_without_request_witness :
  bucket (Ingestion.orchestrator app_py
            {| index_name_input := ""; start_ingestion := true |}
            (set_bucket bucket1 state0)).1 = bucket1.
Proof.
  eapply (no_ingestion_without_request app_py
            {| index_name_input := ""; start_ingestion := true |}
            (set_bucket bucket1 state0) _ _ [(s3_list_objects_v2 bucket_name prefix, None)]).
  - reflexivity.
  - apply surjective_pairing.
  - by vm_compute.
Defined.

Lemma snapshots_after_remove (P : S3Object → bool) (objs : list S3Object) :
  filter Ingestion.is_snapshot (filter P (S3.remove log_key objs))
  = filter Ingestion.is_snapshot (filter P objs).
Proof.
  unfold S3.remove. induction objs as [|x objs IH]; [done|].
  rewrite (filter_cons (λ o, Key o ≠ log_key)). case_decide as Hk.
  - rewrite !(filter_cons P). case_decide; [|done]. rewrite !filter_cons. by rewrite IH.
  - rewrite (filter_cons P x). case_decide; [|done].
    rewrite (filter_cons Ingestion.is_snapshot x). case_decide as Hs; [|done].
    apply Is_true_true in Hs. by apply log_key_not_snapshot in Hs.
Qed.

Lemma json_files_after_save (P : S3Object → bool) (o : S3Object) (objs : list S3Object) :
  Key o = log_key →
  Ingestion.json_files (filter P (o :: S3.remove log_key objs))
  = Ingestion.json_files (filter P objs).
Proof.
  intros Hk. unfold Ingestion.json_files. f_equal.
  rewrite <- (snapshots_after_remove P objs).
  rewrite (filter_cons P o). case_decide; [|done].
  rewrite (filter_cons Ingestion.is_snapshot o). case_decide as Hs; [|done].
  apply Is_true_true in Hs. by apply log_key_not_snapshot in Hs.
Qed.

(** X6.  When the save of the ledger fails after a successful load, the
    run shows the failure and issues no delete: the bucket is what it was,
    so the snapshot is still there and the ledger object has no record of
    it, although the index has been loaded and the ledger the script holds
    has the new record. *)
Theorem failed_save_keeps_snapshot
    (file : script) (inp : Inputs) (s s' : State) (r : exn + unit)
    (new : list (call * option exn)) (Bucket key : string) (data : body) (e : exn) :
  Ingestion.orchestrator file inp s = (s', r) →
  calls s' = (calls s ++ new)%list →
  (s3_upload_file Bucket key data, Some e) ∈ new →
  r = inr tt ∧
  last (screen s') = Some (StError ("❌ Ingestion failed: " ++ str e)) ∧
  bucket s' = bucket s ∧
  (∀ c o, (c, o) ∈ new → ∀ B k, c ≠ s3_delete_object B k) ∧
  (load_and_index bucket_name prefix (index_name_input inp), None) ∈ new ∧
  ∃ latest,
    Ingestion.latest_file (listing s) = Some latest ∧
    ingestion_log s !! Str.basename (Key latest) = None ∧
    ingestion_log s'
    = <[Str.basename (Key latest) := index_name_input inp]> (ingestion_log s).
Proof.
  intros H Hc Hin. unfold_orchestrator H.
  inv_run.
  all: new_calls Hc.
  all: call_cases Hin.
  all: split; [done|]; split; [apply last_snoc|]; split; [done|].
  all: split; [intros c o Hin B k; by call_cases Hin|].
  all: split; [rewrite !elem_of_cons; auto 10|].
  all: exists s0; unfold Ingestion.latest_file, listing; by rewrite Heql.
Qed.

Lemma failed_save_keeps_snapshot_witness :
  bucket (Ingestion.orchestrator app_py inputs1 state_save_fails).1 = bucket1.
Proof.
  eapply (failed_save_keeps_snapshot app_py inputs1 state_save_fails _ _
            [(s3_list_objects_v2 bucket_name prefix, None);
             (s3_download_file bucket_name "copilot/gcp_inventory_20240301-000000.json", None);
             (LangchainPineconeLoader bucket_name prefix "inventory-march", None);
             (load_and_index bucket_name prefix "inventory-march", None);
             (s3_upload_file bucket_name log_key
                (JsonDict {[ "gcp_inventory_20240301-000000.json" := "inventory-march" ]}),
              Some (ServiceError "Connection reset"))]).
  - apply surjective_pairing.
  - by vm_compute.
  - rewrite !elem_of_cons. auto 10.
Defined.

(** X7.  When the delete of the snapshot fails after the ledger has been
    saved, the run shows the failure; the snapshot is still in the bucket
    and still the latest candidate, and the ledger object now records it
    under the index name entered, so the next run finds it already
    ingested. *)
Theorem failed_delete_leaves_a_recorded_snapshot
    (file : script) (inp : Inputs) (s s' : State) (r : exn + unit)
    (new : list (call * option exn)) (Bucket key : string) (e : exn) :
  Ingestion.orchestrator file inp s = (s', r) →
  calls s' = (calls s ++ new)%list →
  (s3_delete_object Bucket key, Some e) ∈ new →
  r = inr tt ∧
  last (screen s') = Some (StError ("❌ Ingestion failed: " ++ str e)) ∧
  ∃ latest,
    key = Key latest ∧
    Ingestion.latest_file (listing s') = Some latest ∧
    latest ∈ bucket s' ∧
    ingestion_log s' !! Str.basename (Key latest) = Some (index_name_input inp) ∧
    ∃ o, S3.find log_key (bucket s') = Some o ∧ Body o = JsonDict (ingestion_log s').
Proof.
  intros H Hc Hin. unfold_orchestrator H.
  inv_run.
  all: new_calls Hc.
  all: call_cases Hin.
  all: split; [done|]; split; [apply last_snoc|].
  all: exists s0; split; [done|].
  all: assert (s0 ∈ bucket s ∧ Key s0 ≠ log_key) as [Hs0 Hk0]
         by (assert (s0 ∈ Ingestion.json_files
                            (filter (λ o, Str.startswith (Key o) prefix) (bucket s)))
               as [Hsnap [_ Hb]%list_elem_of_filter]%elem_of_json_files
               by (rewrite Heql; left);
             split; [done | by apply log_key_not_snapshot]).
  all: split; [unfold Ingestion.latest_file, listing; st_simpl;
               by rewrite (json_files_after_save (λ o, Str.startswith (Key o) prefix)), Heql|].
  all: split; [right; unfold S3.remove; apply list_elem_of_filter; by split|].
  all: split; [apply lookup_insert_eq|].
  all: by eexists.
Qed.

Lemma failed_delete_leaves_a_recorded_snapshot_witness :
  last (screen (Ingestion.orchestrator app_py inputs1 state_delete_fails).1)
  = Some (StError "❌ Ingestion failed: Connection reset").
Proof.
  destruct (failed_delete_leaves_a_recorded_snapshot app_py inputs1 state_delete_fails _ _
              [(s3_list_objects_v2 bucket_name prefix, None);
               (s3_download_file bucket_name "copilot/gcp_inventory_20240301-000000.json",
                None);
               (LangchainPineconeLoader bucket_name prefix "inventory-march", None);
               (load_and_index bucket_name prefix "inventory-march", None);
               (s3_upload_file bucket_name log_key
                  (JsonDict {[ "gcp_inventory_20240301-000000.json" := "inventory-march" ]}),
                None);
               (s3_delete_object bucket_name "copilot/gcp_inventory_20240301-000000.json",
                Some (ServiceError "Connection reset"))]
              bucket_name "copilot/gcp_inventory_20240301-000000.json"
              (ServiceError "Connection reset") (surjective_pairing _))
    as (_ & Hscreen & _).
  - by vm_compute.
  - rewrite !elem_of_cons. auto 10.
  - exact Hscreen.
Defined.

(** X8.  A run of the orchestrator never removes or changes a record of
    the ledger the script holds: every record is still there with its
    index name, and at most one record is added. *)
Theorem ledger_only_grows
    (file : script) (inp : Inputs) (s s' : State) (r : exn + unit) :
  Ingestion.orchestrator file inp s = (s', r) →
  ingestion_log s ⊆ ingestion_log s' ∧
  (size (ingestion_log s') ≤ S (size (ingestion_log s)))%nat.
Proof.
  intros H. unfold_orchestrator H.
  inv_run.
  all: try (split; [done | lia]).
  all: split; [by apply insert_subseteq | by rewrite map_size_insert_None].
Qed.

Lemma ledger_only_grows_witness :
  ingestion_log (set_ingestion_log ledger1 state_delete_fails)
  ⊆ ingestion_log (Ingestion.orchestrator inventory_py inputs1
                     (set_ingestion_log ledger1 state_delete_fails)).1.
Proof.
  eapply (ledger_only_grows inventory_py inputs1). apply surjective_pairing.
Defined.

(** ** The retry loop of the index bootstrap *)

Lemma count_calls_log kind c o s :
  count_calls kind (log_call c o s) = (count_calls kind s + if kind c then 1 else 0)%nat.
Proof.
  unfold count_calls. cbn [calls log_call]. rewrite List.filter_app, length_app.
  cbn [List.filter fst]. by destruct (kind c).
Qed.

Lemma count_calls_next kind s : count_calls kind (next s) = count_calls kind s.
Proof. reflexivity. Qed.

Lemma count_calls_show kind w s : count_calls kind (show w s) = count_calls kind s.
Proof. reflexivity. Qed.

Lemma count_calls_set_clock kind t s : count_calls kind (set_clock t s) = count_calls kind s.
Proof. reflexivity. Qed.

Lemma count_calls_set_indexes kind i s :
  count_calls kind (set_indexes i s) = count_calls kind s.
Proof. reflexivity. Qed.

Ltac count_calls_simpl :=
  repeat (rewrite count_calls_log || rewrite count_calls_next || rewrite count_calls_show
          || rewrite count_calls_set_clock || rewrite count_calls_set_indexes);
  cbn [is_listing is_sleep].

(** The loop over the attempts [k, k+1, ..., retries-1]. *)
Lemma create_index_attempts_from name dim metric retries delay n k s s' returned :
  (k + n = retries)%nat →
  Assistant.create_index_attempts name dim metric retries delay (seq k n) s
  = (s', inr returned) →
  (returned = None → n = 0%nat) ∧
  (returned = Some false →
   count_calls is_listing s' = (count_calls is_listing s + n)%nat ∧
   count_calls is_sleep s' = (count_calls is_sleep s + (n - 1))%nat ∧
   clock s' = clock s + Z.of_nat (n - 1) * delay ∧
   indexes s' = indexes s) ∧
  bucket s' = bucket s.
Proof.
  revert k s. induction n as [|n IH]; intros k s Hk H.
  - cbn in H. inv_run. by repeat split.
  - cbn [seq Assistant.create_index_attempts] in H. inv_run.
    all: try match goal with
             | H : Assistant.create_index_attempts _ _ _ _ _ _ _ = _ |- _ =>
                 apply IH in H as (Hnone & Hfalse & Hb); [|lia]
             end.
    all: st_simpl.
    all: try match goal with
             | H : (_ <? _) = true |- _ => apply Z.ltb_lt in H
             | H : (_ <? _) = false |- _ => apply Z.ltb_ge in H
             end.
    all: split; [intros Hr | split; [intros Hr|]]; try discriminate Hr; try done.
    all: try (apply Hnone in Hr; lia).
    all: try (apply Hfalse in Hr as (-> & -> & -> & ->)).
    all: count_calls_simpl; repeat split; try done; try lia.
    all: assert (Z.of_nat (S n - 1) = 1 + Z.of_nat (n - 1)) as -> by lia; lia.
Qed.

(** X9.  [create_index_with_retry] never raises, whatever Pinecone does,
    and leaves the bucket alone.  It issues at most [retries] create calls.
    When it returns [True] the index is listed by Pinecone; when it returns
    [False] the last thing shown is the error with the number of attempts.
    It ends without a return value only for [retries = 0], and then without
    having called Pinecone at all. *)
Theorem create_index_with_retry_spec
    (name : string) (dim : Z) (metric : string) (retries : nat) (delay : Z)
    (s s' : State) (r : exn + option bool) :
  Assistant.create_index_with_retry name dim metric retries delay s = (s', r) →
  ∃ returned,
    r = inr returned ∧
    (create_calls s' ≤ create_calls s + retries)%nat ∧
    (returned = Some true → name ∈ indexes s') ∧
    (returned = Some false →
     ∃ e, last (screen s')
          = Some (StError ("Failed to create index after " ++ pretty retries
                             ++ " attempts: " ++ str e))) ∧
    (returned = None ↔ retries = 0%nat) ∧
    (retries = 0%nat → s' = s) ∧
    bucket s' = bucket s.
Proof.
  unfold Assistant.create_index_with_retry. intros H.
  destruct (create_index_attempts_spec _ _ _ _ _ _ _ _ _ H)
    as (returned & -> & Hn & Ht & Hf).
  rewrite length_seq in Hn.
  destruct (create_index_attempts_from name dim metric retries delay retries 0 s s' returned
              eq_refl H) as (Hnone & _ & Hb).
  exists returned. repeat split; try done.
  - intros ->. cbn in H. by inv_run.
  - intros ->. cbn in H. by inv_run.
Qed.

Lemma create_index_with_retry_spec_witness :
  ∃ returned,
    (Assistant.create_index_with_retry "inventory-march" 1536 "euclidean" 3 5
       state_pinecone_down).2 = inr returned.
Proof.
  destruct (create_index_with_retry_spec "inventory-march" 1536 "euclidean" 3 5
              state_pinecone_down _ _ (surjective_pairing _))
    as (returned & Hr & _).
  by exists returned.
Defined.

(** X10.  [create_index_with_retry] returns [False] only after [retries]
    attempts, each of which listed the indexes: it has then slept
    [retries - 1] times, [delay] seconds each and never after the last
    attempt, and no index has been created. *)
Theorem create_index_with_retry_exhausted
    (name : string) (dim : Z) (metric : string) (retries : nat) (delay : Z)
    (s s' : State) :
  Assistant.create_index_with_retry name dim metric retries delay s = (s', inr (Some false)) →
  count_calls is_listing s' = (count_calls is_listing s + retries)%nat ∧
  count_calls is_sleep s' = (count_calls is_sleep s + (retries - 1))%nat ∧
  clock s' = clock s + Z.of_nat (retries - 1) * delay ∧
  indexes s' = indexes s.
Proof.
  unfold Assistant.create_index_with_retry. intros H.
  by destruct (create_index_attempts_from name dim metric retries delay retries 0 s s'
                 (Some false) eq_refl H) as (_ & Hfalse & _); auto.
Qed.

Lemma create_index_with_retry_exhausted_witness :
  clock (Assistant.create_index_with_retry "inventory-march" 1536 "euclidean" 3 5
           state_pinecone_down).1 = 10.
Proof.
  destruct (create_index_with_retry_exhausted "inventory-march" 1536 "euclidean" 3 5
              state_pinecone_down
              (Assistant.create_index_with_retry "inventory-march" 1536 "euclidean" 3 5
                 state_pinecone_down).1) as (_ & _ & Hclock & _).
  - by vm_compute.
  - exact Hclock.
Defined.

Lemma create_index_present_witness :
  (Assistant.create_index_with_retry "inventory-march" 1536 "euclidean" 3 5
     (state_answering [])).2 = inr (Some true).
Proof.
  rewrite (create_index_present "inventory-march" 1536 "euclidean" 2 5 (state_answering [])).
  - reflexivity.
  - left.
  - intros i e Hi. by destruct i.
Defined.

Lemma create_index_absent_witness :
  ∃ s', Assistant.create_index_with_retry "inventory-march" 1536 "euclidean" 3 5 state0
        = (s', inr (Some true)) ∧
        calls s' = [(pc_list_indexes, None);
                    (pc_create_index "inventory-march" 1536 "euclidean", None)] ∧
        indexes s' = ["inventory-march"].
Proof.
  apply (create_index_absent "inventory-march" 1536 "euclidean" 2 5 state0).
  - apply not_elem_of_nil.
  - intros i e Hi. by destruct i.
Defined.

(** ** The assistant of [GCP_GPT_Assistant.py] *)

(** X13.  [retrieve_documents] of [GCP_GPT_Assistant.py] issues no call
    and looks at the first [max_docs] matches only; a failed search and a
    response without matches give the empty list.  When each of these
    matches carries a metadata, the method returns, in the order of the
    response, the contents of those that have one, so at most [max_docs]
    documents, and shows one error for each that has none.  A match
    without metadata among them ends the method with a [TypeError], which
    its [except KeyError] does not handle: the errors shown are those of
    the matches before it, and the documents collected so far are lost. *)
Theorem retrieve_documents_outcomes
    (query_result : option QueryResult) (max_docs : nat) (s : State) :
  let results := take max_docs (matches_of query_result) in
  (Forall (λ result, has_metadata result = true) results →
   ∃ s',
     Assistant.retrieve_documents query_result max_docs s
     = (s', inr (omap content_of results)) ∧
     (length (omap content_of results) ≤ max_docs)%nat ∧
     calls s' = calls s ∧ bucket s' = bucket s ∧ history s' = history s ∧
     screen s' = (screen s ++ omap complaint results)%list) ∧
  (∀ before bad after,
     results = (before ++ bad :: after)%list →
     Forall (λ result, has_metadata result = true) before →
     has_metadata bad = false →
     ∃ s',
       Assistant.retrieve_documents query_result max_docs s = (s', inl no_metadata) ∧
       calls s' = calls s ∧ bucket s' = bucket s ∧ history s' = history s ∧
       screen s' = (screen s ++ omap complaint before)%list).
Proof.
  assert (∀ results : list Match,
            (length (omap content_of (take max_docs results)) ≤ max_docs)%nat) as Hlen.
  { intros results. etrans; [apply length_omap_le|]. rewrite length_take. lia. }
  cbv zeta. split.
  - intros Hall. destruct query_result as [[[results|]]|];
      cbn [Assistant.retrieve_documents matches].
    + unfold matches_of in *. cbn in Hall |- *.
      rewrite collect_documents_spec by done. eexists. split; [reflexivity|].
      split; [apply Hlen|].
      pose proof (foldl_show_frame complaint (take max_docs results) s) as Hf.
      pose proof (foldl_show_calls complaint (take max_docs results) s) as Hc.
      cbv zeta in Hf, Hc. tauto.
    + exists s. unfold matches_of. cbn. rewrite take_nil. cbn. rewrite app_nil_r.
      repeat split; lia.
    + exists s. unfold matches_of. cbn. rewrite take_nil. cbn. rewrite app_nil_r.
      repeat split; lia.
  - intros before bad after Heq Hall Hbad.
    destruct query_result as [[[results|]]|]; unfold matches_of in Heq; cbn in Heq;
      rewrite ?take_nil in Heq; try by destruct before.
    cbn [Assistant.retrieve_documents matches].
    rewrite Heq, (collect_documents_raises before bad after) by done.
    eexists. split; [reflexivity|].
    pose proof (foldl_show_frame complaint before s) as Hf.
    pose proof (foldl_show_calls complaint before s) as Hc.
    cbv zeta in Hf, Hc. tauto.
Qed.

(** X14.  [search_index] of [GCP_GPT_Assistant.py] never raises.  It asks
    for the embedding of the question first; when that fails it shows the
    error and returns [None] without querying the index.  When the query of
    the index fails it shows the error and returns [None].  It returns a
    result only when both calls have returned. *)
Theorem search_index_spec
    (self : Assistant.PenTestVAPTAssistant) (q : string) (top_k : nat)
    (s s' : State) (r : exn + option QueryResult) (new : list (call * option exn)) :
  Assistant.search_index self q top_k s = (s', r) →
  calls s' = (calls s ++ new)%list →
  let embed := embeddings_create q (Assistant.embeddings_model self) in
  let search := index_query (Assistant.index self) (embedding s q) top_k in
  (∃ e, new = [(embed, Some e)] ∧ r = inr None ∧
        last (screen s') = Some (StError ("Error generating embedding: " ++ str e)))
  ∨ (∃ e, new = [(embed, None); (search, Some e)] ∧ r = inr None ∧
          last (screen s') = Some (StError ("Error querying index: " ++ str e)))
  ∨ (new = [(embed, None); (search, None)] ∧
     r = inr (Some (neighbours s (Assistant.index self) (embedding s q) top_k)) ∧
     Assistant.index self ∈ indexes s ∧ screen s' = screen s).
Proof.
  intros H Hc. unfold Assistant.search_index, Assistant.generate_embedding in H.
  inv_run.
  all: try discriminate.
  all: new_calls Hc.
  all: repeat match goal with H : Some _ = Some _ |- _ => apply (inj Some) in H; subst end.
  - left. eexists. split; [done|]. split; [done|]. apply last_snoc.
  - right; left. eexists. split; [done|]. split; [done|]. apply last_snoc.
  - right; right. done.
Qed.

Lemma search_index_spec_witness :
  (Assistant.search_index assistant1 "How many buckets?" 6 state0).2 = inr None.
Proof.
  destruct (search_index_spec assistant1 "How many buckets?" 6 state0 _ _
              [(embeddings_create "How many buckets?" "text-embedding-3-small", None);
               (index_query "inventory-march" [] 6, Some (ServiceError "NOT_FOUND"))]
              (surjective_pairing _)) as [(e & _ & Hr & _)|[(e & _ & Hr & _)|(_ & Hr & _)]];
    [by vm_compute|done..].
Defined.

(** X15.  [query] of [GCP_GPT_Assistant.py] only reads: bucket, index
    list and history are as before.  It calls the completion service at
    most once.  It handles every failure of its calls; the one exception
    that leaves it is the [TypeError] of a match without metadata, raised
    before any call to the completion service.  When it returns a report,
    the completion service was called exactly once, the report is the
    stripped completion text and the references returned with it are
    exactly the reference lines of that report; without a report the
    references are empty. *)
Theorem query_spec
    (self : Assistant.PenTestVAPTAssistant) (q : string) (s s' : State)
    (r : exn + (option string * list string)) :
  Assistant.query self q s = (s', r) →
  bucket s' = bucket s ∧ indexes s' = indexes s ∧ history s' = history s ∧
  (completion_calls s' ≤ completion_calls s + 1)%nat ∧
  ((r = inl no_metadata ∧ completion_calls s' = completion_calls s)
   ∨ ∃ report references,
       r = inr (report, references) ∧
       (report = None → references = []) ∧
       (∀ text, report = Some text →
                completion_calls s' = (completion_calls s + 1)%nat ∧
                references = Assistant.extract_references text ∧
                ∃ documents,
                  documents ≠ [] ∧ (length documents ≤ 3)%nat ∧
                  text = Str.strip (completion s
                                      [("system", Assistant.role_description);
                                       ("user", Assistant.build_prompt q documents)]))).
Proof.
  intros H.
  unfold Assistant.query, Assistant.search_index, Assistant.generate_embedding,
    Assistant.generate_report in H.
  inv_run.
  all: try discriminate.
  all: repeat match goal with
              | H : Assistant.retrieve_documents _ _ _ = _ |- _ =>
                  apply retrieve_documents_frame
                    in H as [(Hcalls & ? & ? & ? & Hcomp & ?) [Hr|(docs & Hr & Hlen)]]
              end.
  all: try discriminate.
  all: st_simpl.
  all: repeat (split; [congruence|]).
  all: split; [unfold completion_calls; st_simpl; rewrite ?Hcalls;
               rewrite ?List.filter_app, ?length_app; cbn; lia|].
  all: try (apply inl_eq_inv in Hr; subst; left; split; [reflexivity|];
            unfold completion_calls; rewrite Hcalls;
            rewrite ?List.filter_app, ?length_app; cbn; lia).

  all: right; eexists _, _; split; [reflexivity|].
  all: split; [try done; try congruence|].
  all: intros text Ht; try discriminate Ht.
  all: apply (inj Some) in Ht; subst text.
  all: split; [unfold completion_calls; st_simpl; rewrite ?Hcalls;
               rewrite ?List.filter_app, ?length_app; cbn; lia|].
  all: split; [done|].
  all: apply inr_eq_inv in Hr; subst docs.
  all: eexists; split; [|split; [exact Hlen|st_simpl; by rewrite Hcomp]]; done.
Qed.

Lemma query_spec_witness :
  ∃ report references,
    (Assistant.query assistant1 "How many buckets?" (state_answering matches3)).2
    = inr (report, references) ∧ references = ["Reference: doc a"].
Proof.
  destruct (query_spec assistant1 "How many buckets?" (state_answering matches3) _ _
              (surjective_pairing _))
    as (_ & _ & _ & _ & [[Hr _]|(report & references & Hr & _)]).
  - vm_compute in Hr. discriminate Hr.
  - exists report, references. split; [done|].
    vm_compute in Hr. apply inr_eq_inv, pair_eq_inv in Hr as [_ <-]. reflexivity.
Defined.

(** ** The assistant of [app.py] *)

(** X16.  [query] of [app.py] handles no failure itself: whenever one of
    its calls (embedding, index query, completion) raises, that call is the
    last one issued and its exception is the result of [query].  The method
    shows nothing and changes neither bucket, index list nor history, and
    it issues at most three calls. *)
Theorem app_query_propagates
    (self : App.PenTestVAPTAssistant) (q : string) (s s' : State) (r : exn + string)
    (new : list (call * option exn)) :
  App.query self q s = (s', r) →
  calls s' = (calls s ++ new)%list →
  (length new ≤ 3)%nat ∧
  screen s' = screen s ∧ bucket s' = bucket s ∧ indexes s' = indexes s ∧
  history s' = history s ∧
  (∀ c e, (c, Some e) ∈ new → r = inl e ∧ last new = Some (c, Some e)) ∧
  (∀ answer, r = inr answer → ∀ c o, (c, o) ∈ new → o = None).
Proof.
  intros H Hc.
  unfold App.query, App.search_index, App.generate_embedding, App.generate_report,
    App.retrieve_documents in H.
  inv_run.
  all: repeat match goal with
              | H : comprehension _ _ _ = _ |- _ => apply comprehension_calls in H; subst
              end.
  all: st_simpl.
  all: new_calls Hc.
  all: split; [cbn; lia|]; repeat (split; [done|]).
  all: split; [intros c e' Hin; call_cases Hin; by split
              | intros answer Hr c o Hin; try discriminate Hr; by call_cases Hin].
Qed.

Lemma app_query_propagates_witness :
  (App.query assistant2 "How many buckets?" state_openai_down).2
  = inl (ServiceError "Connection error.").
Proof.
  destruct (app_query_propagates assistant2 "How many buckets?" state_openai_down _ _
              [(embeddings_create "How many buckets?" "text-embedding-3-small",
                Some (ServiceError "Connection error."))]
              (surjective_pairing _)) as (_ & _ & _ & _ & _ & Hfail & _).
  - by vm_compute.
  - eapply Hfail. left.
Defined.

(** ** The QnA scripts as a whole *)

Lemma for_each_markdown_inv {A} (text : A → string) xs s s' r :
  for_each (λ x, st_markdown (text x)) xs s = (s', r) →
  r = inr tt ∧ calls s' = calls s ∧ bucket s' = bucket s ∧ history s' = history s.
Proof.
  revert s. induction xs as [|x xs IH]; intros s H; cbn [for_each] in H.
  - by inv_run.
  - inv_run. apply IH in H0 as (-> & -> & -> & ->). done.
Qed.

Lemma get_latest_index_frame s s' r :
  Assistant.get_latest_index_from_s3_log s = (s', r) →
  (∃ selected, r = inr selected) ∧ bucket s' = bucket s ∧ history s' = history s ∧
  environ s' = environ s.
Proof.
  intros H. unfold Assistant.get_latest_index_from_s3_log in H.
  inv_run; try discriminate; eauto.
Qed.

Lemma create_index_attempts_frame name dim metric retries delay attempts s s' r :
  Assistant.create_index_attempts name dim metric retries delay attempts s = (s', r) →
  (∃ returned, r = inr returned) ∧ bucket s' = bucket s ∧ history s' = history s ∧
  environ s' = environ s.
Proof.
  revert s s' r. induction attempts as [|attempt rest IH]; intros s s' r H.
  - cbn in H. inv_run. eauto.
  - cbn [Assistant.create_index_attempts] in H. inv_run.
    all: try match goal with
             | H : Assistant.create_index_attempts _ _ _ _ _ _ _ = _ |- _ =>
                 apply IH in H as (? & -> & -> & ->)
             end.
    all: eauto.
Qed.

Lemma query_frame self q s s' r :
  Assistant.query self q s = (s', r) →
  bucket s' = bucket s ∧ history s' = history s ∧
  (r = inl no_metadata
   ∨ ∃ report references,
       r = inr (report, references) ∧
       ∀ text, report = Some text → references = Assistant.extract_references text).
Proof.
  intros H.
  unfold Assistant.query, Assistant.search_index, Assistant.generate_embedding,
    Assistant.generate_report in H.
  inv_run.
  all: try discriminate.
  all: repeat match goal with
              | H : Assistant.retrieve_documents _ _ _ = _ |- _ =>
                  apply retrieve_documents_frame
                    in H as [(? & ? & ? & ? & ? & ?) [Hr|(docs & Hr & _)]]
              end.
  all: try discriminate.
  all: st_simpl.
  all: split; [done|]; split; [done|].
  all: try (apply inl_eq_inv in Hr; subst; by left).
  all: right; eexists _, _; split; [reflexivity|].
  all: intros text Ht; try discriminate Ht.
  apply (inj Some) in Ht. by subst.
Qed.

(** What the set-up raises without a Pinecone key. *)
Lemma setup_inv s s' r :
  Assistant.setup s = (s', r) →
  s' = s ∧
  (r = inr tt
   ∨ r = inl (ValueError "PINECONE_API_KEY is not set in environment variables.") ∧
     (environ s !! "PINECONE_API_KEY" = None ∨ environ s !! "PINECONE_API_KEY" = Some "")).
Proof.
  unfold Assistant.setup, getenv. intros H. inv_run.
  all: split; [done|]; auto.
Qed.

(** X17.  A run of [GCP_GPT_Assistant.py] leaves the bucket as it is and
    the session history append-only: the history is unchanged, or it has
    gained exactly one entry, made of the question asked, a non-empty
    answer and the reference lines of that answer, and this only in a run
    that ends normally with the form submitted.  The run can end in an
    exception in four ways only: the [ValueError] of the set-up when the
    environment holds no Pinecone key, before anything else is done; a
    failing [pc.Index]; the error of [OpenAI()] when the environment holds
    no OpenAI key; and the [TypeError] of a match without metadata. *)
Theorem script_spec (user_question : string) (submit_button : bool) (s s' : State) (r : exn + unit) :
  Assistant.script user_question submit_button s = (s', r) →
  bucket s' = bucket s ∧
  (history s' = history s ∨
   ∃ text,
     r = inr tt ∧ submit_button = true ∧ text ≠ "" ∧
     history s' = (history s ++
                     [{| question := user_question; answer := text;
                         references := Assistant.extract_references text |}])%list) ∧
  (∀ e, r = inl e →
        (e = ValueError "PINECONE_API_KEY is not set in environment variables." ∧ s' = s ∧
         (environ s !! "PINECONE_API_KEY" = None ∨ environ s !! "PINECONE_API_KEY" = Some ""))
        ∨ (∃ name, last (calls s') = Some (pc_Index name, Some e))
        ∨ ((∃ msg, e = ServiceError msg) ∧ environ s !! "OPENAI_API_KEY" = None ∧
           ∃ name, last (calls s') = Some (pc_Index name, None))
        ∨ e = no_metadata).
Proof.
  intros H. unfold Assistant.script in H.
  apply bind_inv in H as [(e0 & H & ->)|(? & s0 & H & Hmain)].
  { apply setup_inv in H as [-> [H|[H Henv]]]; [discriminate H|].
    apply inl_eq_inv in H as ->.
    split; [done|]. split; [by left|]. intros e He. apply inl_eq_inv in He as <-. by left. }
  apply setup_inv in H as [-> _]. rename Hmain into H.
  unfold Assistant.main, Assistant.new, Assistant.create_index_with_retry, OpenAI.client,
    getenv in H.
  inv_run.
  all: repeat match goal with
              | H : Assistant.get_latest_index_from_s3_log _ = _ |- _ =>
                  apply get_latest_index_frame in H as ([? ?] & ? & ? & ?)
              | H : Assistant.create_index_attempts _ _ _ _ _ _ _ = _ |- _ =>
                  apply create_index_attempts_frame in H as ([? ?] & ? & ? & ?)
              | H : Assistant.query _ _ _ = _ |- _ =>
                  apply query_frame in H as (? & ? & [?|(? & ? & ? & ?)])
              | H : for_each _ _ _ = _ |- _ =>
                  apply (for_each_markdown_inv (λ x, x)) in H as (? & ? & ? & ?)
              | H : for_each _ _ _ = _ |- _ =>
                  apply (for_each_markdown_inv (λ ref, "- " ++ ref)) in H as (? & ? & ? & ?)
              end.
  all: try discriminate.
  all: st_simpl.
  all: repeat (inv_run_step; subst).
  all: split; [congruence|].
  all: split; [|intros e He; try discriminate He; apply inl_eq_inv in He; subst;
                first [ by right; right; right
                      | right; left; eexists; apply last_snoc
                      | right; right; left; split; [by eexists|];
                        split; [congruence|eexists; apply last_snoc] ]].
  all: try (left; congruence).
  all: match goal with
       | H : ∀ text, Some (String ?c ?rest) = Some text → _ |- _ =>
           right; exists (String c rest); split; [done|]
       end.
  all: apply andb_true_iff in Heqb0 as [-> _]; split; [done|]; split; [done|].
  all: match goal with H : ∀ text, Some _ = Some text → _ |- _ => rewrite <- (H _ eq_refl) end.
  all: congruence.
Qed.

Lemma script_spec_witness :
  (Assistant.script "How many buckets?" true (set_environ ∅ state_create_fails)).1
  = set_environ ∅ state_create_fails.
Proof.
  destruct (script_spec "How many buckets?" true (set_environ ∅ state_create_fails) _ _
              (surjective_pairing _)) as (_ & _ & Hraise).
  destruct (Hraise (ValueError "PINECONE_API_KEY is not set in environment variables."))
    as [(_ & Hs & _)|[(name & Hlast)|[(_ & _ & name & Hlast)|He]]].
  - reflexivity.
  - exact Hs.
  - vm_compute in Hlast. discriminate Hlast.
  - vm_compute in Hlast. discriminate Hlast.
  - discriminate He.
Defined.

(** The side bar of the QnA page of [app.py]: it issues no call and
    changes nothing but the screen; it ends in Streamlit's error exactly
    when a question is about to get a second button. *)
Lemma history_buttons_inv entries drawn s s' r :
  App.history_buttons entries drawn s = (s', r) →
  (calls s' = calls s ∧ bucket s' = bucket s ∧ history s' = history s ∧
   indexes s' = indexes s) ∧
  (∃ shown, screen s' = (screen s ++ shown)%list) ∧
  ((r = inr tt ∧ NoDup (question <$> entries) ∧
    ∀ label, label ∈ question <$> entries → label ∉ drawn)
   ∨ ∃ label, r = inl (DuplicateWidgetID label) ∧ label ∈ question <$> entries ∧
              (label ∈ drawn ∨ ¬ NoDup (question <$> entries))).
Proof.
  revert drawn s. induction entries as [|entry rest IH]; intros drawn s H.
  - cbn in H. inv_run. split; [done|]. split; [by exists []; rewrite app_nil_r|].
    left. split; [done|]. split; [constructor|]. intros label Hl. by apply elem_of_nil in Hl.
  - cbn [App.history_buttons] in H. unfold st_sidebar_button in H.
    inv_run.
    all: try match goal with
             | H : App.history_buttons _ _ _ = _ |- _ =>
                 apply IH in H as ((-> & -> & -> & ->) & [shown ->] & Hout)
             end.
    all: st_simpl.
    all: split; [done|].
    all: split; [rewrite <- ?app_assoc; try (by eexists); by exists []; rewrite app_nil_r|].
    all: rewrite fmap_cons.
    all: try (right; exists (question entry); split; [done|]; split; [left|by left]).
    all: destruct Hout as [(-> & Hnd & Hfresh)|(label & -> & Hin & Hdup)].
    all: try (left; split; [done|]; split;
              [constructor; [intros Hq; by apply (Hfresh _ Hq); left | done]
              |intros label [->|Hl]%elem_of_cons; [done|];
               intros Hd; apply (Hfresh _ Hl); by right]).
    all: right; exists label; split; [done|]; split; [by right|].
    all: destruct Hdup as [[->|Hd]%elem_of_cons|Hnd]; [right|by left|right].
    all: rewrite NoDup_cons; tauto.
Qed.

Lemma history_sidebar_inv s s' r :
  App.history_sidebar s = (s', r) →
  (calls s' = calls s ∧ bucket s' = bucket s ∧ history s' = history s ∧
   indexes s' = indexes s) ∧
  (∃ shown, screen s' = (screen s ++ shown)%list) ∧
  ((r = inr tt ∧ NoDup (question <$> history s))
   ∨ ∃ label, r = inl (DuplicateWidgetID label) ∧ ¬ NoDup (question <$> history s)).
Proof.
  unfold App.history_sidebar. intros H. inv_run.
  - split; [done|]. split; [by exists []; rewrite app_nil_r|].
    left. split; [done|]. constructor.
  - match goal with
    | H : App.history_buttons _ _ _ = _ |- _ =>
        apply history_buttons_inv in H as ((-> & -> & -> & ->) & [shown ->] & Hout)
    end.
    st_simpl. split; [done|]. split; [rewrite <- app_assoc; by eexists|].
    destruct Hout as [(-> & Hnd & _)|(label & -> & _ & [Hd|Hnd])].
    + by left.
    + by apply elem_of_nil in Hd.
    + right. by exists label.
Qed.

Lemma comprehension_raises results s s' e :
  comprehension App.metadata_content results s = (s', inl e) →
  e = KeyError "content" ∨ e = no_metadata.
Proof.
  revert s s'. induction results as [|result results IH]; intros s s' H; cbn in H.
  - by inv_run.
  - unfold App.metadata_content in H at 1.
    destruct (metadata result) as [md|]; [destruct (md !! "content")|]; inv_run;
      eauto.
Qed.

(** Page 2, from the selection of the index to the side bar. *)
Lemma qna_page_inv
    (user_question : string) (submitted : bool) (s s' : State) (r : exn + unit)
    (new : list (call * option exn)) :
  App.qna_page user_question submitted s = (s', r) →
  calls s' = (calls s ++ new)%list →
  bucket s' = bucket s ∧
  (history s' = history s ∨
   ∃ answer,
     submitted = true ∧ user_question ≠ "" ∧
     history s' = (history s ++ [{| question := user_question; answer := answer;
                                    references := [] |}])%list) ∧
  (∀ e, r = inl e →
        (history s' = history s ∧
         ((∃ c, last new = Some (c, Some e)) ∨ e = KeyError "content" ∨ e = no_metadata))
        ∨ ∃ label, e = DuplicateWidgetID label ∧ ¬ NoDup (question <$> history s')) ∧
  (∀ c e, (c, Some e) ∈ new → c ≠ s3_download_file bucket_name log_key → r = inl e).
Proof.
  intros H Hc.
  unfold App.qna_page, App.get_latest_index_from_s3_log,
    Assistant.get_latest_index_from_s3_log, App.new, App.query, App.search_index,
    App.generate_embedding, App.generate_report, App.retrieve_documents in H.
  inv_run.
  all: try discriminate.
  all: repeat match goal with
              | H : comprehension _ _ _ = (_, inl _) |- _ =>
                  pose proof (comprehension_raises _ _ _ _ H) as Hraise
              end.
  all: repeat match goal with
              | H : comprehension _ _ _ = _ |- _ => apply comprehension_calls in H; subst
              | H : App.history_sidebar _ = _ |- _ =>
                  apply history_sidebar_inv
                    in H as ((Hcalls & Hbucket & Hhist & _) & _ & Hout)
              end.
  all: try destruct Hout as [[-> Hnd]|(label & -> & Hdup)].
  all: st_simpl.
  all: rewrite ?Hcalls in Hc; st_simpl.
  all: new_calls Hc.
  all: rewrite ?Hbucket, ?Hhist; st_simpl.
  all: split; [done|].
  all: split;
         [first [ by left
                | right; eexists; apply andb_true_iff in Heqb0 as [-> Hq];
                  split; [done|]; split; [by intros ->|done] ]|].
  all: split; [|intros c e' Hin Hne; call_cases Hin; done].
  all: intros e' He; try discriminate He; apply inl_eq_inv in He; subst.
  all: first [ left; split; [done|]; first [ left; eexists; reflexivity | by right ]
             | right; eexists; split; [reflexivity|]; rewrite Hhist; exact Hdup
             | right; eexists; split; [reflexivity|]; exact Hdup ].
Qed.

(** X18.  A run of [app.py] with page 2 selected leaves the bucket as it
    is.  Apart from the download of the ledger, whose failure only means
    that no index is selected, every call that raises ends the run with
    its exception.  The history gains at most one entry, the question with
    its answer, and only when a non-empty question was submitted.  A run
    ends in an exception in four ways: in the set-up, before anything is
    done, when the environment holds no Pinecone key or no OpenAI key; by
    its last call; by the [KeyError] or [TypeError] of a match without
    content or without metadata; nothing is recorded in these three cases.
    The fourth is Streamlit's refusal of a button of the side bar, which
    is drawn after the entry is recorded: the history then holds a
    question twice. *)
Theorem qna_run_spec
    (user_question : string) (submitted : bool) (s s' : State) (r : exn + unit)
    (new : list (call * option exn)) :
  App.qna_run user_question submitted s = (s', r) →
  calls s' = (calls s ++ new)%list →
  bucket s' = bucket s ∧
  (history s' = history s ∨
   ∃ answer,
     submitted = true ∧ user_question ≠ "" ∧
     history s' = (history s ++ [{| question := user_question; answer := answer;
                                    references := [] |}])%list) ∧
  (∀ e, r = inl e →
        (history s' = history s ∧
         ((s' = s ∧
           (e = ValueError "PINECONE_API_KEY not set."
            ∨ (∃ msg, e = ServiceError msg) ∧ environ s !! "OPENAI_API_KEY" = None))
          ∨ (∃ c, last new = Some (c, Some e))
          ∨ e = KeyError "content" ∨ e = no_metadata))
        ∨ ∃ label, e = DuplicateWidgetID label ∧ ¬ NoDup (question <$> history s')) ∧
  (∀ c e, (c, Some e) ∈ new → c ≠ s3_download_file bucket_name log_key → r = inl e).
Proof.
  intros H Hc. unfold App.qna_run in H.
  apply bind_inv in H as [(e0 & H & ->)|(s0 & ? & H & Hpage)].
  - assert (s' = s) as ->.
    { unfold App.setup, OpenAI.client, getenv in H. by inv_run. }
    split; [done|]. split; [by left|].
    split; [|intros c e Hin; rewrite <- (app_nil_r (calls s)) in Hc at 1;
              apply app_inv_head in Hc as <-; by apply elem_of_nil in Hin].
    intros e He. apply inl_eq_inv in He as <-. left. split; [done|]. left. split; [done|].
    unfold App.setup, OpenAI.client, getenv in H. inv_run; eauto.
  - assert (s0 = s) as ->.
    { unfold App.setup, OpenAI.client, getenv in H. by inv_run. }
    unfold st_markdown in Hpage.
    apply bind_inv in Hpage as [(? & Hpage & _)|(s1 & ? & Hm1 & Hpage)];
      [apply modify_inv in Hpage as [_ Hpage]; discriminate Hpage|].
    apply bind_inv in Hpage as [(? & Hpage & _)|(s2 & ? & Hm2 & Hpage)];
      [apply modify_inv in Hpage as [_ Hpage]; discriminate Hpage|].
    apply modify_inv in Hm1 as [-> _]. apply modify_inv in Hm2 as [-> _].
    destruct (qna_page_inv _ _ _ _ _ _ Hpage Hc) as (Hb & Hh & Hraise & Hcalls).
    split; [done|]. split; [done|]. split; [|done].
    intros e He. destruct (Hraise e He) as [[Hhist Hway]|Hdup]; [left|by right].
    split; [done|]. by right.
Qed.

Lemma qna_run_spec_witness :
  (App.qna_run "How many buckets?" true state_create_fails).2 = inl timeout.
Proof.
  destruct (qna_run_spec "How many buckets?" true state_create_fails _ _
              [(s3_download_file bucket_name log_key, None);
               (pc_list_indexes, None);
               (pc_create_index "inventory-march" 1536 "euclidean", Some timeout)]
              (surjective_pairing _)) as (_ & _ & _ & Hfail).
  - vm_compute. reflexivity.
  - eapply Hfail; [do 2 apply list_elem_of_further; apply list_elem_of_here|discriminate].
Defined.

(** ** From ingestion to the QnA flow *)

Lemma get_latest_index_of_ledger s o (d : gmap string string) :
  quiet 1 s →
  S3.find log_key (bucket s) = Some o →
  Body o = JsonDict d →
  d ≠ ∅ →
  ∃ k index_name,
    (Assistant.get_latest_index_from_s3_log s).2 = inr (Some index_name) ∧
    greatest_key d k ∧ d !! k = Some index_name.
Proof.
  intros Hq Hfind Hbody Hne.
  destruct (Assistant.get_latest_index_from_s3_log s) as [s' r] eqn:H.
  unfold Assistant.get_latest_index_from_s3_log in H.
  inv_run.
  all: try match goal with H : _ ∨ _ |- _ => destruct H as [H|H] end.
  all: try quiet_contra Hq.
  all: try (rewrite Hfind in *; discriminate).
  all: repeat match goal with
              | H1 : S3.find ?key ?b = Some ?x, H2 : S3.find ?key ?b = Some ?y |- _ =>
                  assert_fails (constr_eq x y); assert (x = y) by congruence; subst
              end.
  all: try congruence.
  all: repeat match goal with
              | H1 : Body ?x = JsonDict ?d1, H2 : Body ?x = JsonDict ?d2 |- _ =>
                  assert_fails (constr_eq d1 d2); assert (d1 = d2) by congruence; subst
              end.
  all: try done.
  - by apply sorted_keys_nil in Heql.
  - apply sorted_keys_head in Heql as [[v Hv] _]. congruence.
  - apply sorted_keys_head in Heql. eauto.
Qed.

(** X19.  After a run of the orchestrator that completed an ingestion (its
    delete call returned), the QnA flow, when S3 answers, selects the index
    recorded under the greatest key of the ledger the run has saved.  When
    the name of the ingested snapshot is not smaller than any key already
    in the ledger, as for snapshots named by their time of creation and
    ingested in that order, this is the index name just entered. *)
Theorem ingested_index_is_selected
    (file : script) (inp : Inputs) (s s' : State) (r : exn + unit)
    (new : list (call * option exn)) (Bucket key : string) :
  Ingestion.orchestrator file inp s = (s', r) →
  calls s' = (calls s ++ new)%list →
  (s3_delete_object Bucket key, None) ∈ new →
  quiet 1 s' →
  ∃ k index_name,
    (Assistant.get_latest_index_from_s3_log s').2 = inr (Some index_name) ∧
    greatest_key (ingestion_log s') k ∧
    ingestion_log s' !! k = Some index_name ∧
    ((∀ k', is_Some (ingestion_log s !! k') → String.leb k' (Str.basename key) = true) →
     index_name = index_name_input inp).
Proof.
  intros H Hc Hin Hq. unfold_orchestrator H.
  inv_run.
  all: new_calls Hc.
  all: call_cases Hin.
  all: assert (Key s0 ≠ log_key) as Hk0
         by (apply log_key_not_snapshot;
             assert (s0 ∈ Ingestion.json_files
                            (filter (λ o, Str.startswith (Key o) prefix) (bucket s)))
               as [Hsnap _]%elem_of_json_files by (rewrite Heql; left);
             done).
  all: match goal with
       | |- context [Assistant.get_latest_index_from_s3_log ?st] =>
           destruct (get_latest_index_of_ledger st
                       {| Key := log_key; LastModified := clock s;
                          Body := JsonDict (<[Str.basename (Key s0) := index_name_input inp]>
                                              (ingestion_log s)) |}
                       (<[Str.basename (Key s0) := index_name_input inp]> (ingestion_log s))
                       Hq)
             as (k & v & Hsel & Hgreat & Hlook);
           [ cbn [bucket show log_call set_bucket];
             rewrite find_remove_ne by exact (not_eq_sym Hk0);
             rewrite find_cons; cbn [Key]; rewrite String.eqb_refl; reflexivity
           | reflexivity | apply insert_non_empty |]
       end.
  all: exists k, v; split; [done|]; split; [done|]; split; [done|].
  all: intros Hold; destruct Hgreat as [_ Hmax].
  all: destruct (decide (k = Str.basename (Key s0))) as [->|Hne];
         [rewrite lookup_insert_eq in Hlook; congruence|].
  all: rewrite lookup_insert_ne in Hlook by done.
  all: exfalso; apply Hne; apply String.leb_antisym;
         [apply Hold; eauto | apply Hmax; rewrite lookup_insert_eq; eauto].
Qed.

Lemma ingested_index_is_selected_witness :
  ∃ k index_name,
    (Assistant.get_latest_index_from_s3_log state_ingested).2 = inr (Some index_name) ∧
    greatest_key (ingestion_log state_ingested) k ∧
    ingestion_log state_ingested !! k = Some index_name.
Proof.
  destruct (ingested_index_is_selected app_py inputs1 (set_bucket bucket1 state0)
              state_ingested (Ingestion.orchestrator app_py inputs1 (set_bucket bucket1 state0)).2
              [(s3_list_objects_v2 bucket_name prefix, None);
               (s3_download_file bucket_name "copilot/gcp_inventory_20240301-000000.json",
                None);
               (LangchainPineconeLoader bucket_name prefix "inventory-march", None);
               (load_and_index bucket_name prefix "inventory-march", None);
               (s3_upload_file bucket_name log_key
                  (JsonDict {[ "gcp_inventory_20240301-000000.json" := "inventory-march" ]}),
                None);
               (s3_delete_object bucket_name "copilot/gcp_inventory_20240301-000000.json",
                None)]
              bucket_name "copilot/gcp_inventory_20240301-000000.json")
    as (k & v & H1 & H2 & H3 & _).
  - apply surjective_pairing.
  - vm_compute. reflexivity.
  - do 5 apply list_elem_of_further. apply list_elem_of_here.
  - intros i e Hi. destruct i as [|i]; [|lia]. vm_compute. discriminate.
  - exists k, v. exact (conj H1 (conj H2 H3)).
Defined.

(** ** What a run touches in the bucket *)

(** The objects a run of the orchestrator reads, writes and deletes, and
    what it hands to the loader. *)
Lemma orchestrator_touches file inp s s' r new :
  Ingestion.orchestrator file inp s = (s', r) →
  calls s' = (calls s ++ new)%list →
  ∀ c o, (c, o) ∈ new →
    match c with
    | s3_download_file Bucket key | s3_delete_object Bucket key =>
        Bucket = bucket_name ∧
        ∃ obj, Ingestion.latest_file (listing s) = Some obj ∧ Key obj = key
    | s3_upload_file Bucket key data =>
        Bucket = bucket_name ∧ key = log_key ∧ ∃ d, data = JsonDict d
    | LangchainPineconeLoader b d i | load_and_index b d i =>
        b = bucket_name ∧ d = prefix ∧ i = index_name_input inp
    | _ => True
    end.
Proof.
  intros H Hc c o Hin. unfold_orchestrator H.
  unfold Ingestion.latest_file, listing.
  inv_run.
  all: new_calls Hc.
  all: call_cases Hin.
  all: try exact I.
  all: rewrite ?Heql; cbn [head]; eauto.
Qed.

Lemma latest_file_listed s obj :
  Ingestion.latest_file (listing s) = Some obj →
  obj ∈ bucket s ∧ Key obj ≠ log_key.
Proof.
  intros [Hsnap Hin]%latest_file_elem_of%elem_of_json_files.
  apply list_elem_of_filter in Hin as [_ Hin].
  split; [done | by apply log_key_not_snapshot].
Qed.

(** X20.  Of the objects of the bucket, a run of the orchestrator itself
    downloads only the latest snapshot candidate of the listing, writes
    only the ledger object, with a JSON object as its content, and deletes
    only that latest candidate, never the ledger.  The loader it calls is
    given the bucket, the directory [copilot/] and the index name entered,
    not the selected file: what the loader reads in that directory is the
    loader's own business. *)
Theorem orchestrator_touches_ledger_and_latest
    (file : script) (inp : Inputs) (s s' : State) (r : exn + unit)
    (new : list (call * option exn)) :
  Ingestion.orchestrator file inp s = (s', r) →
  calls s' = (calls s ++ new)%list →
  (∀ Bucket key o, (s3_download_file Bucket key, o) ∈ new →
     Bucket = bucket_name ∧
     ∃ obj, Ingestion.latest_file (listing s) = Some obj ∧ Key obj = key) ∧
  (∀ Bucket key data o, (s3_upload_file Bucket key data, o) ∈ new →
     Bucket = bucket_name ∧ key = log_key ∧ ∃ d, data = JsonDict d) ∧
  (∀ Bucket key o, (s3_delete_object Bucket key, o) ∈ new →
     Bucket = bucket_name ∧ key ≠ log_key ∧
     ∃ obj, Ingestion.latest_file (listing s) = Some obj ∧ Key obj = key) ∧
  (∀ b d i o,
     (LangchainPineconeLoader b d i, o) ∈ new ∨ (load_and_index b d i, o) ∈ new →
     b = bucket_name ∧ d = prefix ∧ i = index_name_input inp).
Proof.
  intros H Hc.
  pose proof (orchestrator_touches _ _ _ _ _ _ H Hc) as Htouch.
  split; [|split; [|split]].
  - intros Bucket key o Hin. by apply Htouch in Hin.
  - intros Bucket key data o Hin. by apply Htouch in Hin.
  - intros Bucket key o Hin. apply Htouch in Hin as [-> (obj & Hlatest & <-)].
    split; [done|]. split; [|eauto].
    by apply latest_file_listed in Hlatest as [_ ?].
  - intros b d i o [Hin|Hin]; by apply Htouch in Hin.
Qed.

Lemma orchestrator_touches_ledger_and_latest_witness :
  "copilot/gcp_inventory_20240301-000000.json" ≠ log_key.
Proof.
  destruct (orchestrator_touches_ledger_and_latest app_py inputs1 (set_bucket bucket1 state0)
              _ _
              [(s3_list_objects_v2 bucket_name prefix, None);
               (s3_download_file bucket_name "copilot/gcp_inventory_20240301-000000.json",
                None);
               (LangchainPineconeLoader bucket_name prefix "inventory-march", None);
               (load_and_index bucket_name prefix "inventory-march", None);
               (s3_upload_file bucket_name log_key
                  (JsonDict {[ "gcp_inventory_20240301-000000.json" := "inventory-march" ]}),
                None);
               (s3_delete_object bucket_name "copilot/gcp_inventory_20240301-000000.json",
                None)]
              (surjective_pairing _))
    as (_ & _ & Hdel & _).
  - vm_compute. reflexivity.
  - apply (Hdel bucket_name "copilot/gcp_inventory_20240301-000000.json" None).
    do 5 apply list_elem_of_further. apply list_elem_of_here.
Defined.

(** Once the orchestrator has deleted a snapshot, no object of the bucket
    has its key. *)
Lemma deleted_is_gone file inp s s' r new Bucket key :
  Ingestion.orchestrator file inp s = (s', r) →
  calls s' = (calls s ++ new)%list →
  (s3_delete_object Bucket key, None) ∈ new →
  ∀ obj, obj ∈ bucket s' → Key obj ≠ key.
Proof.
  intros H Hc Hin obj Hobj. unfold_orchestrator H.
  inv_run.
  all: new_calls Hc.
  all: call_cases Hin.
  all: unfold S3.remove at 1 in Hobj.
  all: by apply list_elem_of_filter in Hobj as [? _].
Qed.

(** X21.  A snapshot that one run of the orchestrator has ingested and
    deleted is neither downloaded nor deleted by a later run, whatever has
    been added to the bucket or changed in it in between, whatever the
    later run finds in the ledger and whatever the services do, as long as
    nothing has put an object under its key again. *)
Theorem ingested_snapshot_is_left_alone
    (file file' : script) (inp inp' : Inputs) (s s1 s1' s2 : State) (r1 r2 : exn + unit)
    (new1 new2 : list (call * option exn)) (Bucket key : string) :
  Ingestion.orchestrator file inp s = (s1, r1) →
  calls s1 = (calls s ++ new1)%list →
  (s3_delete_object Bucket key, None) ∈ new1 →
  (∀ obj, obj ∈ bucket s1' → Key obj = key → obj ∈ bucket s1) →
  Ingestion.orchestrator file' inp' s1' = (s2, r2) →
  calls s2 = (calls s1' ++ new2)%list →
  ∀ Bucket' o,
    ((s3_download_file Bucket' key, o) ∉ new2) ∧ ((s3_delete_object Bucket' key, o) ∉ new2).
Proof.
  intros H1 Hc1 Hdel Hsub H2 Hc2 Bucket' o.
  pose proof (deleted_is_gone _ _ _ _ _ _ Bucket key H1 Hc1 Hdel) as Hgone.
  pose proof (orchestrator_touches _ _ _ _ _ _ H2 Hc2) as Htouch.
  split; intros Hin; apply Htouch in Hin as [_ (obj & Hlatest & Hk)];
    apply latest_file_listed in Hlatest as [Hobj _];
    by apply (Hgone obj); [apply Hsub|].
Qed.

Lemma ingested_snapshot_is_left_alone_witness :
  (s3_download_file bucket_name "copilot/gcp_inventory_20240301-000000.json", None)
    ∉ [(s3_list_objects_v2 bucket_name prefix, @None exn);
       (s3_download_file bucket_name "copilot/gcp_inventory_20240401-000000.json", None);
       (LangchainPineconeLoader bucket_name prefix "inventory-april", None);
       (load_and_index bucket_name prefix "inventory-april", None);
       (s3_upload_file bucket_name log_key
          (JsonDict {[ "gcp_inventory_20240301-000000.json" := "inventory-march";
                       "gcp_inventory_20240401-000000.json" := "inventory-april" ]}), None);
       (s3_delete_object bucket_name "copilot/gcp_inventory_20240401-000000.json", None)].
Proof.
  refine (proj1 (ingested_snapshot_is_left_alone app_py app_py inputs1
                   {| index_name_input := "inventory-april"; start_ingestion := true |}
                   (set_bucket bucket1 state0) state_ingested state_fetched_again
                   _ _ _
                   [(s3_list_objects_v2 bucket_name prefix, None);
                    (s3_download_file bucket_name
                       "copilot/gcp_inventory_20240301-000000.json", None);
                    (LangchainPineconeLoader bucket_name prefix "inventory-march", None);
                    (load_and_index bucket_name prefix "inventory-march", None);
                    (s3_upload_file bucket_name log_key
                       (JsonDict {[ "gcp_inventory_20240301-000000.json"
                                    := "inventory-march" ]}), None);
                    (s3_delete_object bucket_name
                       "copilot/gcp_inventory_20240301-000000.json", None)]
                   _
                   bucket_name "copilot/gcp_inventory_20240301-000000.json"
                   (surjective_pairing _) _ _ _ (surjective_pairing _) _
                   bucket_name None)).
  - vm_compute. reflexivity.
  - do 5 apply list_elem_of_further. apply list_elem_of_here.
  - intros obj [->|Hin]%elem_of_cons Hk; [discriminate Hk|exact Hin].
  - vm_compute. reflexivity.
Defined.

(** ** What page 2 of [app.py] records *)






(** X23.  A question may be asked once: a run of page 2 of [app.py] that
    ends normally either stopped at the selection of the index, having
    issued nothing but the download of the ledger, or leaves a history in
    which no question occurs twice.  So a run that records a question the
    history already holds does not end normally, and no later run that
    selects an index does, since the history is kept across runs. *)
Theorem repeated_question_ends_the_run
    (user_question : string) (submitted : bool) (s s' : State) (r : exn + unit)
    (new : list (call * option exn)) :
  App.qna_page user_question submitted s = (s', r) →
  calls s' = (calls s ++ new)%list →
  r = inr tt →
  (∃ o, new = [(s3_download_file bucket_name log_key, o)] ∧ history s' = history s)
  ∨ NoDup (question <$> history s').
Proof.
  intros H Hc Hr.
  unfold App.qna_page, App.get_latest_index_from_s3_log,
    Assistant.get_latest_index_from_s3_log, App.new, App.query, App.search_index,
    App.generate_embedding, App.generate_report, App.retrieve_documents in H.
  inv_run.
  all: try discriminate.
  all: repeat match goal with
              | H : comprehension _ _ _ = _ |- _ => apply comprehension_calls in H; subst
              | H : App.history_sidebar _ = _ |- _ =>
                  apply history_sidebar_inv
                    in H as ((Hcalls & _ & Hhist & _) & _ & Hout)
              end.
  all: try (destruct Hout as [[_ Hnd]|(label & Hl & _)]; [|discriminate Hl];
            right; rewrite Hhist; exact Hnd).
  all: st_simpl; new_calls Hc.
  all: left; by eexists.
Qed.

Lemma repeated_question_ends_the_run_witness :
  NoDup (question <$> history (App.qna_page "How many buckets?" true state_no_matches).1).
Proof.
  destruct (repeated_question_ends_the_run "How many buckets?" true state_no_matches
              (App.qna_page "How many buckets?" true state_no_matches).1
              (App.qna_page "How many buckets?" true state_no_matches).2
              [(s3_download_file bucket_name log_key, None);
               (pc_list_indexes, None);
               (pc_Index "inventory-march", None);
               (embeddings_create "How many buckets?" "text-embedding-3-small", None);
               (index_query "inventory-march" [1; 2; 3] 6, None)])
    as [(o & Hnew & _)|Hnd].
  - apply surjective_pairing.
  - vm_compute. reflexivity.
  - vm_compute. reflexivity.
  - discriminate Hnew.
  - exact Hnd.
Defined.
